(** * AIND-Recognizer: model selectors and recognizer

    A shallow embedding of [my_model_selectors.py] and [my_recognizer.py].

    - Python floats (and numpy's float64) are Rocq's primitive binary64
      floats, so comparisons against [np.inf], [-np.inf] and NaN behave as
      they do in the program.
    - Python exceptions are an error monad [res]; [try ... except Exception]
      is a match on it.
    - The hmmlearn model object is a record whose [fitted] field is what the
      last call of [fit] learnt; hmmlearn itself (the training oracle) and
      [np.log] are the operations of the class [Oracle].
    - Python dicts that are iterated ([hwords], [models]) are association
      lists in insertion order; the recognizer's per-item score dict is a
      [gmap]. *)

From Stdlib Require Import ZArith Floats.
From stdpp Require Import base option list gmap strings.

Local Open Scope Z_scope.

(** ** Python values and exceptions *)

(** The exceptions the code can meet; all of them derive from [Exception],
    so [except Exception] and the bare [except] catch every one. *)
Inductive exn : Type :=
| AttributeError
| IndexError
| KeyError
| OverflowError
| ValueError
| ZeroDivisionError.

Inductive res (A : Type) : Type :=
| Ok (a : A)
| Raise (e : exn).

Arguments Ok {A} a.
Arguments Raise {A} e.

#[global] Instance res_ret : MRet res := fun A a => Ok a.

#[global] Instance res_bind : MBind res := fun A B f m =>
  match m with
  | Ok a => f a
  | Raise e => Raise e
  end.

(** [o.attr] or [o.method(...)] on a value that may be [None]. *)
Definition getattr {A : Type} (o : option A) : res A :=
  match o with
  | Some a => Ok a
  | None => Raise AttributeError
  end.

(** [range(lo, hi)] *)
Definition py_range (lo hi : Z) : list Z :=
  map (fun i : nat => lo + Z.of_nat i) (seq 0 (Z.to_nat (hi - lo))).

(** [d[k]] on a dict kept as an association list in insertion order. *)
Fixpoint dict_getitem {V : Type} (d : list (string * V)) (k : string) : res V :=
  match d with
  | [] => Raise KeyError
  | (k', v) :: d' => if String.eqb k' k then Ok v else dict_getitem d' k
  end.

(** Iterating a dict walks its keys in insertion order. *)
Definition dict_keys {V : Type} (d : list (string * V)) : list string := map fst d.

(** Conversion of a Python int to a float, to nearest-even (exact below
    [2^53], and the state counts and sequence counts of this program are
    far below that). *)
Definition float_of_int (z : Z) : float :=
  SF2Prim (binary_normalize prec emax z 0 false).

(** An int operand of float arithmetic, as in [p * np.log(n_obs)]: the int
    is converted, and one too large for a float is an [OverflowError]. *)
Definition py_float (z : Z) : res float :=
  if is_infinity (float_of_int z) then Raise OverflowError
  else Ok (float_of_int z).

(** A number that starts as the int [0] and becomes a float by [+=]. *)
Inductive pynum : Type :=
| PyInt (z : Z)
| PyFloat (f : float).

(** [acc += x] for a float [x]. *)
Definition py_iadd (acc : pynum) (x : float) : pynum :=
  match acc with
  | PyInt z => PyFloat (float_of_int z + x)
  | PyFloat f => PyFloat (f + x)
  end.

(** [acc /= k] for an int [k]: ints divide with [ZeroDivisionError], a
    numpy float divided by zero only warns and yields inf or nan. *)
Definition py_itruediv (acc : pynum) (k : Z) : res float :=
  match acc with
  | PyInt z =>
      if k =? 0 then Raise ZeroDivisionError
      else Ok (float_of_int z / float_of_int k)%float
  | PyFloat f => Ok (f / float_of_int k)%float
  end.

(** [x * acc] for a float [x]. *)
Definition py_rmul (x : float) (acc : pynum) : float :=
  match acc with
  | PyInt z => (x * float_of_int z)%float
  | PyFloat f => (x * f)%float
  end.

(** ** Data *)

Definition frame : Type := list float.
(** A numpy feature matrix, one row per frame; [len] is its row count. *)
Definition matrix : Type := list frame.
(** The pair [(X, lengths)] hmmlearn takes. *)
Definition Xlengths : Type := (matrix * list Z)%type.
Definition sequence : Type := list frame.

(** ** External collaborators *)

(** Modelled from the spec: [asl_utils.combine_sequences] is imported by the
    selectors and is not among the sources. It concatenates the frames of
    the sequences at the given indices, in index order, and records their
    lengths; an index out of range is an [IndexError]. *)
Fixpoint take_sequences (idx : list nat) (seqs : list sequence) : res (list sequence) :=
  match idx with
  | [] => Ok []
  | i :: idx' =>
      s ← match seqs !! i with Some s => Ok s | None => Raise IndexError end;
      rest ← take_sequences idx' seqs;
      Ok (s :: rest)
  end.

Definition combine_sequences (idx : list nat) (seqs : list sequence) : res Xlengths :=
  chosen ← take_sequences idx seqs;
  Ok (concat chosen, map (fun s : sequence => Z.of_nat (length s)) chosen).

(** The fold partitioner,
    [sklearn.model_selection.KFold(n_splits=k).split(samples)] without
    shuffling, after sklearn's documented behaviour: the constructor raises
    [ValueError] for [k <= 1], [split] raises it when there are fewer
    samples than folds; otherwise fold [i] holds out the next
    [n // k (+ 1 for the first n % k folds)] consecutive indices and trains
    on the others. *)
Fixpoint kfold_tests (sizes : list nat) (start : nat) : list (list nat) :=
  match sizes with
  | [] => []
  | sz :: sizes' => seq start sz :: kfold_tests sizes' (start + sz)
  end.

Definition kfold_sizes (k n : nat) : list nat :=
  map (fun i : nat => (n / k + (if (i <? n `mod` k)%nat then 1 else 0))%nat) (seq 0 k).

Definition kfold_train (n : nat) (test : list nat) : list nat :=
  filter (fun i : nat => i ∉ test) (seq 0 n).

Definition KFold_split (k : Z) (n_samples : nat) : res (list (list nat * list nat)) :=
  if k <=? 1 then Raise ValueError
  else if Z.of_nat n_samples <? k then Raise ValueError
  else Ok (map (fun test : list nat => (kfold_train n_samples test, test))
               (kfold_tests (kfold_sizes (Z.to_nat k) n_samples) 0)).

(** The numeric libraries: hmmlearn's [GaussianHMM] and [np.log].
    [hmm_fit n seed previous data] is what [fit] learns on an object
    constructed with [n_components = n] and [random_state = seed] whose
    last [fit] left [previous]; [hmm_score] is [score] on a fitted object;
    [hmm_n_features] reads the attribute [fit] sets. Fitting and scoring
    may raise. *)
Class Oracle : Type := {
  params : Type;
  hmm_fit : Z -> Z -> option params -> Xlengths -> res params;
  hmm_score : Z -> params -> Xlengths -> res float;
  hmm_n_features : params -> Z;
  np_log : Z -> float
}.

(** Modelled from the spec: [asl_data.SinglesData] is not among the
    sources; the recognizer reads only [num_items] and
    [get_item_Xlengths(i)] of it, the ordered test items. *)
Record SinglesData : Type := {
  num_items : nat;
  get_item_Xlengths : nat -> Xlengths
}.

(** ** my_model_selectors.py *)

Section Selectors.
Context `{Oracle}.

(** A [GaussianHMM] object: its constructor arguments and what the last
    [fit] learnt ([None] on a fresh object). *)
Record GaussianHMM : Type := {
  n_components : Z;
  random_state : Z;
  fitted : option params
}.

(** [model.fit(X, lengths)]: trains the object in place and returns it. *)
Definition fit (model : GaussianHMM) (d : Xlengths) : res GaussianHMM :=
  p ← hmm_fit (n_components model) (random_state model) (fitted model) d;
  Ok {| n_components := n_components model;
        random_state := random_state model;
        fitted := Some p |}.

(** [model.score(X, lengths)] *)
Definition score (model : GaussianHMM) (d : Xlengths) : res float :=
  match fitted model with
  | Some p => hmm_score (n_components model) p d
  | None => Raise ValueError
  end.

(** [model.n_features] *)
Definition n_features (model : GaussianHMM) : res Z :=
  match fitted model with
  | Some p => Ok (hmm_n_features p)
  | None => Raise AttributeError
  end.

(** The fields [ModelSelector.__init__] sets ([verbose] only prints). *)
Record ModelSelector : Type := {
  words : list (string * list sequence);
  hwords : list (string * Xlengths);
  sequences : list sequence;
  X : matrix;
  lengths : list Z;
  this_word : string;
  n_constant : Z;
  min_n_components : Z;
  max_n_components : Z;
  selector_random_state : Z;
  verbose : bool
}.

Definition ModelSelector_init (all_word_sequences : list (string * list sequence))
  (all_word_Xlengths : list (string * Xlengths)) (word : string)
  (n_const min_n max_n seed : Z) (verb : bool) : res ModelSelector :=
  seqs ← dict_getitem all_word_sequences word;
  xl ← dict_getitem all_word_Xlengths word;
  Ok {| words := all_word_sequences; hwords := all_word_Xlengths;
        sequences := seqs; X := xl.1; lengths := xl.2; this_word := word;
        n_constant := n_const; min_n_components := min_n;
        max_n_components := max_n; selector_random_state := seed;
        verbose := verb |}.

(** [base_model]: a fresh object fitted on the category's full data, or
    [None] when fitting raises. *)
Definition base_model (self : ModelSelector) (num_states : Z) : option GaussianHMM :=
  match fit {| n_components := num_states;
               random_state := selector_random_state self;
               fitted := None |} (X self, lengths self) with
  | Ok hmm_model => Some hmm_model
  | Raise _ => None
  end.

Definition SelectorConstant_select (self : ModelSelector) : res (option GaussianHMM) :=
  let best_num_components := n_constant self in
  Ok (base_model self best_num_components).

(** The three running-best variables of the search loops. *)
Record best : Type := {
  best_score : float;
  best_model : option GaussianHMM;
  best_n : option Z
}.

(** *** SelectorBIC *)

(** The body of the [try] block for candidate [n], up to the comparison. *)
Definition bic_candidate (self : ModelSelector) (n_obs n : Z) : res (float * GaussianHMM) :=
  model ← getattr (base_model self n);
  model ← fit model (X self, lengths self);
  d ← n_features model;
  let p := n ^ 2 + 2 * n * d - 1 in
  logL ← score model (X self, lengths self);
  pf ← py_float p;
  Ok ((-2 * logL + pf * np_log n_obs)%float, model).

Definition bic_step (self : ModelSelector) (n_obs : Z) (st : best) (n : Z) : best :=
  match bic_candidate self n_obs n with
  | Ok (sc, model) =>
      if (sc <? best_score st)%float
      then {| best_score := sc; best_model := Some model; best_n := Some n |}
      else st
  | Raise _ => st
  end.

Definition SelectorBIC_select (self : ModelSelector) : res (option GaussianHMM) :=
  let st := {| best_score := infinity; best_model := None; best_n := None |} in
  let n_obs := Z.of_nat (length (X self)) in
  let st := fold_left (bic_step self n_obs)
              (py_range (min_n_components self) (max_n_components self + 1)) st in
  Ok (best_model st).

(** *** SelectorDIC *)

(** The inner loop over [self.hwords]: the running [count] and
    [sum_anti_ll]; a [score] that raises leaves the loop. *)
Fixpoint dic_anti_loop (self : ModelSelector) (model : GaussianHMM)
  (ws : list string) (count : Z) (sum_anti_ll : pynum) : res (Z * pynum) :=
  match ws with
  | [] => Ok (count, sum_anti_ll)
  | word :: ws' =>
      if String.eqb word (this_word self)
      then dic_anti_loop self model ws' count sum_anti_ll
      else
        anti ← dict_getitem (hwords self) word;
        ll ← score model anti;
        dic_anti_loop self model ws' (count + 1) (py_iadd sum_anti_ll ll)
  end.

Definition dic_candidate (self : ModelSelector) (n : Z) : res (float * GaussianHMM) :=
  model ← getattr (base_model self n);
  model ← fit model (X self, lengths self);
  logL ← score model (X self, lengths self);
  cs ← dic_anti_loop self model (dict_keys (hwords self)) 0 (PyInt 0);
  inv ← (if cs.1 =? 0 then Raise ZeroDivisionError
         else Ok (1 / float_of_int cs.1)%float);
  Ok ((logL - py_rmul inv cs.2)%float, model).

Definition dic_step (self : ModelSelector) (st : best) (n : Z) : best :=
  match dic_candidate self n with
  | Ok (sc, model) =>
      if (best_score st <? sc)%float
      then {| best_score := sc; best_model := Some model; best_n := Some n |}
      else st
  | Raise _ => st
  end.

Definition SelectorDIC_select (self : ModelSelector) : res (option GaussianHMM) :=
  let st := {| best_score := neg_infinity; best_model := None; best_n := None |} in
  let st := fold_left (dic_step self)
              (py_range (min_n_components self) (max_n_components self + 1)) st in
  Ok (best_model st).

(** *** SelectorCV *)

(** The body of the loop over the folds: the one [model] object is fitted
    on the training part and scored on the held-out part. *)
Definition cv_fold (self : ModelSelector) (model : option GaussianHMM)
  (fold : list nat * list nat) : res (GaussianHMM * float) :=
  train ← combine_sequences fold.1 (sequences self);
  test ← combine_sequences fold.2 (sequences self);
  m ← getattr model;
  m ← fit m train;
  ll ← score m test;
  Ok (m, ll).

Fixpoint cv_fold_loop (self : ModelSelector) (model : option GaussianHMM)
  (split : list (list nat * list nat)) (sc : pynum) : res (option GaussianHMM * pynum) :=
  match split with
  | [] => Ok (model, sc)
  | fold :: split' =>
      r ← cv_fold self model fold;
      cv_fold_loop self (Some r.1) split' (py_iadd sc r.2)
  end.

Definition cv_candidate (self : ModelSelector) (k n : Z) : res (float * option GaussianHMM) :=
  let model := base_model self n in
  split ← KFold_split k (length (sequences self));
  ms ← cv_fold_loop self model split (PyInt 0);
  sc ← py_itruediv ms.2 k;
  Ok (sc, ms.1).

Definition cv_step (self : ModelSelector) (k : Z) (st : best) (n : Z) : best :=
  match cv_candidate self k n with
  | Ok (sc, model) =>
      if (best_score st <? sc)%float
      then {| best_score := sc; best_model := model; best_n := Some n |}
      else st
  | Raise _ => st
  end.

(** The search loop of [SelectorCV.select], before the final refit. *)
Definition cv_search (self : ModelSelector) : best :=
  let st := {| best_score := neg_infinity; best_model := None; best_n := None |} in
  let k := Z.min 3 (Z.of_nat (length (sequences self))) in
  fold_left (cv_step self k)
    (py_range (min_n_components self) (max_n_components self + 1)) st.

Definition SelectorCV_select (self : ModelSelector) : res (option GaussianHMM) :=
  match best_model (cv_search self) with
  | Some m => m' ← fit m (X self, lengths self); Ok (Some m')
  | None => Ok None
  end.

(** ** my_recognizer.py *)

(** One turn of the loop over [models.keys()]: the state is
    [(probs_i, best_score, best_guess)]. *)
Definition word_score (models : list (string * option GaussianHMM)) (d : Xlengths)
  (candidate_word : string) : float :=
  match (m ← dict_getitem models candidate_word; model ← getattr m; score model d) with
  | Ok ll => ll
  | Raise _ => neg_infinity
  end.

Definition recognize_word (models : list (string * option GaussianHMM)) (d : Xlengths)
  (st : gmap string float * float * option string) (candidate_word : string)
  : gmap string float * float * option string :=
  let ll := word_score models d candidate_word in
  let probs_i := <[candidate_word := ll]> st.1.1 in
  if (st.1.2 <? ll)%float
  then (probs_i, ll, Some candidate_word)
  else (probs_i, st.1.2, st.2).

Definition recognize_item (models : list (string * option GaussianHMM)) (d : Xlengths)
  : gmap string float * float * option string :=
  fold_left (recognize_word models d) (dict_keys models) (∅, neg_infinity, None).

Definition recognize (models : list (string * option GaussianHMM)) (test_set : SinglesData)
  : list (gmap string float) * list (option string) :=
  fold_left
    (fun (acc : list (gmap string float) * list (option string)) (i : nat) =>
       let r := recognize_item models (get_item_Xlengths test_set i) in
       (acc.1 ++ [r.1.1], acc.2 ++ [r.2]))
    (seq 0 (num_items test_set)) ([], []).

End Selectors.

(** ** Oracles to run the program on *)

Definition frame_head (f : frame) : float :=
  match f with
  | x :: _ => x
  | [] => 0%float
  end.

(** A stateless stand-in for hmmlearn: fitting needs at least as many
    frames as states and remembers the feature width and the first frame;
    scoring raises on frames of another width, and otherwise charges the
    squared distance of every frame to the remembered one plus a penalty
    that is least at three states. *)
Record toy_params : Type := {
  toy_width : Z;
  toy_center : float
}.

Definition toy_fit (n seed : Z) (prev : option toy_params) (d : Xlengths) : res toy_params :=
  match d.1 with
  | [] => Raise ValueError
  | f :: _ =>
      if (n <=? 0) || (Z.of_nat (length d.1) <? n) then Raise ValueError
      else Ok {| toy_width := Z.of_nat (length f); toy_center := frame_head f |}
  end.

Definition toy_score (n : Z) (p : toy_params) (d : Xlengths) : res float :=
  if forallb (fun f : frame => Z.of_nat (length f) =? toy_width p) d.1
  then Ok (fold_left
             (fun (acc : float) (f : frame) =>
                acc - (frame_head f - toy_center p) * (frame_head f - toy_center p))
             d.1 0 - float_of_int ((n - 3) ^ 2))%float
  else Raise ValueError.

Definition toy : Oracle := {|
  params := toy_params;
  hmm_fit := toy_fit;
  hmm_score := toy_score;
  hmm_n_features := toy_width;
  np_log := fun z : Z => float_of_int (Z.log2 z)
|}.

(** A stand-in whose [fit] warm-starts from what the object learnt before:
    it counts the fits the object has gone through and raises on the
    fifth. *)
Record warm_params : Type := {
  warm_width : Z;
  warm_fits : Z
}.

Definition warm_fit (n seed : Z) (prev : option warm_params) (d : Xlengths) : res warm_params :=
  match d.1 with
  | [] => Raise ValueError
  | f :: _ =>
      let done := match prev with Some p => warm_fits p | None => 0 end in
      if 4 <=? done then Raise ValueError
      else Ok {| warm_width := Z.of_nat (length f); warm_fits := done + 1 |}
  end.

Definition warm : Oracle := {|
  params := warm_params;
  hmm_fit := warm_fit;
  hmm_score := fun (n : Z) (p : warm_params) (d : Xlengths) => Ok (float_of_int (- n));
  hmm_n_features := warm_width;
  np_log := fun z : Z => float_of_int (Z.log2 z)
|}.

(** Two categories of two-dimensional frames and one of three-dimensional
    frames. *)
Definition cat_sequences : list sequence :=
  [ [[1; 1]; [2; 1]]; [[1; 2]; [2; 2]; [3; 2]]; [[1; 0]] ]%float.

Definition dog_sequences : list sequence :=
  [ [[5; 5]; [6; 5]]; [[5; 6]] ]%float.

Definition eel_sequences : list sequence :=
  [ [[0; 0; 1]; [0; 1; 1]] ]%float.

Definition as_Xlengths (seqs : list sequence) : Xlengths :=
  (concat seqs, map (fun s : sequence => Z.of_nat (length s)) seqs).

Definition demo_sequences : list (string * list sequence) :=
  [("CAT", cat_sequences); ("DOG", dog_sequences)]%string.

Definition demo_Xlengths : list (string * Xlengths) :=
  [("CAT", as_Xlengths cat_sequences); ("DOG", as_Xlengths dog_sequences)]%string.

(** A selector over given data, searching [min_n .. max_n]. *)
Definition selector_for (seqs : list (string * list sequence))
  (word : string) (min_n max_n : Z) : ModelSelector :=
  {| words := seqs;
     hwords := map (fun e : string * list sequence => (e.1, as_Xlengths e.2)) seqs;
     sequences := match dict_getitem seqs word with Ok s => s | Raise _ => [] end;
     X := concat (match dict_getitem seqs word with Ok s => s | Raise _ => [] end);
     lengths := map (fun s : sequence => Z.of_nat (length s))
                  (match dict_getitem seqs word with Ok s => s | Raise _ => [] end);
     this_word := word; n_constant := 3;
     min_n_components := min_n; max_n_components := max_n;
     selector_random_state := 14; verbose := false |}.

Definition test_items (items : list Xlengths) : SinglesData :=
  {| num_items := length items;
     get_item_Xlengths := fun i : nat => nth i items ([], []) |}.

Definition zoo_sequences : list (string * list sequence) :=
  demo_sequences ++ [("EEL", eel_sequences)]%string.

Definition cat_selector : ModelSelector := selector_for demo_sequences "CAT" 2 4.
Definition dog_selector : ModelSelector := selector_for demo_sequences "DOG" 2 4.
Definition zoo_selector : ModelSelector := selector_for zoo_sequences "CAT" 2 4.

(** A category with a single sequence. *)
Definition solo_selector : ModelSelector :=
  selector_for [("CAT", [[[1; 1]; [2; 1]; [3; 1]]]%float)]%string "CAT" 2 4.

(** An [n]-state model of the toy oracle, trained on the CAT data. *)
Definition toy_model (n : Z) : @GaussianHMM toy :=
  {| n_components := n; random_state := 14;
     fitted := Some ({| toy_width := 2; toy_center := 1 |} : @params toy) |}.

Definition cat_model : @GaussianHMM toy := toy_model 3.

(** A two-state model of the warm-starting oracle after [fits] fits. *)
Definition warm_model (fits : Z) : @GaussianHMM warm :=
  {| n_components := 2; random_state := 14;
     fitted := Some ({| warm_width := 2; warm_fits := fits |} : @params warm) |}.

(** Models for a recognizer run: CAT has a model, DOG's selection
    failed. *)
Definition demo_models : list (string * option (@GaussianHMM toy)) :=
  [("CAT", Some cat_model); ("DOG", None)]%string.

(** A search range with no candidate, a category with no sequence, and a
    models mapping with one category. *)
Definition empty_range_selector : ModelSelector := selector_for demo_sequences "CAT" 5 4.

Definition no_sequence_selector : ModelSelector :=
  selector_for [("CAT", []); ("DOG", dog_sequences)]%string "CAT" 2 4.

Definition cat_only_models : list (string * option (@GaussianHMM toy)) :=
  [("CAT", Some cat_model)]%string.

(** ** Vocabulary of the statements *)

(** The shape the four search loops share: a running best score and the
    candidate holding it, replaced only when [better] says the new score
    strictly improves; a candidate with no score leaves them alone. *)
Definition track {C V : Type} (better : float -> float -> bool)
  (eval : C -> option (float * V)) (st : float * option (C * V)) (c : C)
  : float * option (C * V) :=
  match eval c with
  | Some (s, v) => if better s st.1 then (s, Some (c, v)) else st
  | None => st
  end.

(** What such a loop holds after the candidates [cs], started from [init]:
    nothing when no score improves on [init]; otherwise the first candidate
    among those no other score improves on ([weakly] is the non-strict
    comparison: no earlier candidate is even as good). *)
Inductive tracked {C V : Type} (better weakly : float -> float -> bool)
  (eval : C -> option (float * V)) (init : float) (cs : list C)
  : float * option (C * V) -> Prop :=
| tracked_none :
    (forall c s v, c ∈ cs -> eval c = Some (s, v) -> better s init = false) ->
    tracked better weakly eval init cs (init, None)
| tracked_some (l1 : list C) (c : C) (l2 : list C) (s : float) (v : V) :
    cs = l1 ++ c :: l2 ->
    eval c = Some (s, v) ->
    better s init = true ->
    (forall c' s' v', c' ∈ l1 -> eval c' = Some (s', v') -> weakly s' s = false) ->
    (forall c' s' v', c' ∈ l2 -> eval c' = Some (s', v') -> better s' s = false) ->
    tracked better weakly eval init cs (s, Some (c, v)).

(** A raised exception is no score. *)
Definition caught {A : Type} (r : res A) : option A :=
  match r with
  | Ok a => Some a
  | Raise _ => None
  end.

(** The spec's criterion: [BIC = -2 * logL + p * ln N] with
    [p = n^2 + 2*n*d - 1]. *)
Definition BIC `{Oracle} (logL : float) (n d N : Z) : float :=
  (-2 * logL + float_of_int (n ^ 2 + 2 * n * d - 1) * np_log N)%float.

(** The two orders the loops use, on the new score [s] and the running
    best [b]: [score < best_score] for BIC, [score > best_score] for DIC,
    cross-validation and the recognizer. *)
Definition lower (s b : float) : bool := (s <? b)%float.
Definition lower_eq (s b : float) : bool := (s <=? b)%float.
Definition higher (s b : float) : bool := (b <? s)%float.
Definition higher_eq (s b : float) : bool := (b <=? s)%float.

(** The three loop variables, from a running best over state counts. *)
Definition held `{Oracle} (g : float * option (Z * option GaussianHMM)) : best :=
  {| best_score := g.1; best_model := g.2 ≫= snd; best_n := fst <$> g.2 |}.

(** The score and model a candidate's [try] block reaches, if it does. *)
Definition scored `{Oracle} (r : res (float * GaussianHMM))
  : option (float * option GaussianHMM) :=
  match r with
  | Ok (s, m) => Some (s, Some m)
  | Raise _ => None
  end.

(** [sum_anti_ll] after adding the scores [lls] to the int [0], in order. *)
Definition total (lls : list float) : pynum := fold_left py_iadd lls (PyInt 0).

(** The spec's criterion: [DIC = logL_self - mean_anti_logL], the mean
    taken as the code does, [1/float(count) * sum_anti_ll]. *)
Definition DIC (logL : float) (anti : list float) : float :=
  (logL - py_rmul (1 / float_of_int (Z.of_nat (length anti))) (total anti))%float.

(** The other categories, in the order [hwords] lists them. *)
Definition foreign (self : ModelSelector) : list string :=
  filter (fun w : string => w <> this_word self) (dict_keys (hwords self)).

(** [ll] is the score of [model] on the full data of category [w]. *)
Definition anti_score `{Oracle} (self : ModelSelector) (model : GaussianHMM)
  (w : string) (ll : float) : Prop :=
  exists d, dict_getitem (hwords self) w = Ok d /\ score model d = Ok ll.

(** The foreign scores that do not raise, which the spec's wording would
    average when scoring against some foreign category fails. *)
Definition tolerated_anti `{Oracle} (self : ModelSelector) (model : GaussianHMM)
  : list float :=
  omap (fun w : string => caught (d ← dict_getitem (hwords self) w; score model d))
       (foreign self).

(** The spec's wording of the tolerance, for candidate [n]: once the
    candidate is fitted and scored on its own data, it keeps a DIC, the
    average running over the foreign categories that could be scored. *)
Definition foreign_failure_tolerated `{Oracle} (self : ModelSelector) (n : Z) : Prop :=
  forall m0 m logL,
    base_model self n = Some m0 ->
    fit m0 (X self, lengths self) = Ok m ->
    score m (X self, lengths self) = Ok logL ->
    tolerated_anti self m <> [] ->
    dic_candidate self n = Ok (DIC logL (tolerated_anti self m), m).

(** The arithmetic mean of [lls], summed from [0] in order as the fold
    loop does. *)
Definition mean (lls : list float) : float :=
  (fold_left PrimFloat.add lls 0 / float_of_int (Z.of_nat (length lls)))%float.

(** [cv_folds self model split lls model']: every fold of [split] is
    fitted and scored without raising; [lls] are the held-out scores, one
    per fold and in order, and [model'] is the object after the last
    fit. *)
Inductive cv_folds `{Oracle} (self : ModelSelector)
  : option GaussianHMM -> list (list nat * list nat) -> list float ->
    option GaussianHMM -> Prop :=
| cv_folds_nil (model : option GaussianHMM) : cv_folds self model [] [] model
| cv_folds_cons (model : option GaussianHMM) (fold : list nat * list nat)
    (split : list (list nat * list nat)) (m : GaussianHMM) (ll : float)
    (lls : list float) (model' : option GaussianHMM) :
    cv_fold self model fold = Ok (m, ll) ->
    cv_folds self (Some m) split lls model' ->
    cv_folds self model (fold :: split) (ll :: lls) model'.

(** [fit] learns the same from a used object as from a fresh one. *)
Definition fit_ignores_previous `{Oracle} : Prop :=
  forall n seed prev d, hmm_fit n seed prev d = hmm_fit n seed None d.

(** The spec's wording of the final refit: what [SelectorCV.select]
    returns is a fresh model at the winning state count fitted on the
    category's full data, which is what [base_model] builds. *)
Definition returns_fresh_refit `{Oracle} (self : ModelSelector) : Prop :=
  forall m', SelectorCV_select self = Ok (Some m') ->
    exists n, best_n (cv_search self) = Some n /\ base_model self n = Some m'.

(** [w] is the arg-max of the score map [probs] over the categories
    [keys] in iteration order: no score is above its score, and no
    category met before it has a score as high. *)
Definition is_argmax (keys : list string) (probs : gmap string float) (w : string) : Prop :=
  exists l1 l2 s,
    keys = l1 ++ w :: l2 /\ probs !! w = Some s /\
    (forall w' s', probs !! w' = Some s' -> (s <? s')%float = false) /\
    (forall w' s', w' ∈ l1 -> probs !! w' = Some s' -> (s <=? s')%float = false).

(** The spec's wording of the recognizer's guess: for every item the
    guess is the arg-max of the item's score map. *)
Definition guess_is_argmax `{Oracle} (models : list (string * option GaussianHMM))
  (test_set : SinglesData) : Prop :=
  forall i probs w,
    (recognize models test_set).1 !! i = Some probs ->
    is_argmax (dict_keys models) probs w ->
    (recognize models test_set).2 !! i = Some (Some w).

(** * Properties *)

(** ** Order of binary64 floats

    [<?] and [<=?] on floats, NaN included: what the running-best loops
    rely on. The facts are read off the specification of the primitive
    comparisons on [spec_float]. *)

Module FloatOrder.

Ltac sf_cases :=
  repeat match goal with
  | |- context [Z.compare ?a ?b] =>
      destruct (Z.compare_spec a b); simpl; try congruence
  | |- context [Pos.compare ?a ?b] =>
      destruct (Pos.compare_spec a b); simpl; try congruence
  end.

Ltac sf_order :=
  unfold SFltb, SFleb, SFcompare;
  repeat match goal with
  | x : spec_float |- _ => destruct x as [[]|[]| |[] ? ?]
  end;
  simpl; try congruence;
  change (Pos.compare_cont Eq) with Pos.compare;
  sf_cases; intros; try congruence; try lia.

Lemma SFltb_irrefl (x : spec_float) : SFltb x x = false.
Proof.
  unfold SFltb, SFcompare.
  destruct x as [[]|[]| |[] m e]; simpl; try reflexivity;
    rewrite Z.compare_refl, Pos.compare_cont_refl; reflexivity.
Qed.

Lemma SFltb_trans (x y z : spec_float) :
  SFltb x y = true -> SFltb y z = true -> SFltb x z = true.
Proof. sf_order. Qed.

Lemma SFleb_ltb_trans (x y z : spec_float) :
  SFleb x y = true -> SFltb y z = true -> SFltb x z = true.
Proof. sf_order. Qed.

Lemma SFltb_leb_trans (x y z : spec_float) :
  SFltb x y = true -> SFleb y z = true -> SFltb x z = true.
Proof. sf_order. Qed.

Lemma SFltb_leb (x y : spec_float) : SFltb x y = true -> SFleb x y = true.
Proof. sf_order. Qed.

Lemma ltb_irrefl (x : float) : (x <? x)%float = false.
Proof. rewrite ltb_spec. apply SFltb_irrefl. Qed.

Lemma ltb_trans (x y z : float) :
  (x <? y)%float = true -> (y <? z)%float = true -> (x <? z)%float = true.
Proof. rewrite !ltb_spec. apply SFltb_trans. Qed.

Lemma leb_ltb_trans (x y z : float) :
  (x <=? y)%float = true -> (y <? z)%float = true -> (x <? z)%float = true.
Proof. rewrite !ltb_spec, leb_spec. apply SFleb_ltb_trans. Qed.

Lemma ltb_leb_trans (x y z : float) :
  (x <? y)%float = true -> (y <=? z)%float = true -> (x <? z)%float = true.
Proof. rewrite !ltb_spec, leb_spec. apply SFltb_leb_trans. Qed.

Lemma ltb_leb (x y : float) : (x <? y)%float = true -> (x <=? y)%float = true.
Proof. rewrite ltb_spec, leb_spec. apply SFltb_leb. Qed.

(** A float that is a number and is not above [-inf] is [-inf]. *)
Lemma not_above_neg_infinity (x : float) :
  (neg_infinity <? x)%float = false -> is_nan x = false -> x = neg_infinity.
Proof.
  unfold is_nan. rewrite ltb_spec, FloatAxioms.eqb_spec. intros Hlt Hnan.
  rewrite <- (SF2Prim_Prim2SF x).
  change (Prim2SF neg_infinity) with (S754_infinity true) in Hlt.
  destruct (Prim2SF x) as [[]|[]| |[] m e]; try discriminate; reflexivity.
Qed.

Lemma neg_infinity_not_above (x : float) : (x <? neg_infinity)%float = false.
Proof.
  rewrite ltb_spec. change (Prim2SF neg_infinity) with (S754_infinity true).
  destruct (Prim2SF x) as [[]|[]| |[] m e]; reflexivity.
Qed.

(** NaN compares false with everything, so a NaN score never replaces a
    running best, whichever way the loop compares. *)
Lemma nan_never_improves (b : float) :
  lower nan b = false /\ higher nan b = false.
Proof.
  unfold lower, higher. rewrite !ltb_spec.
  change (Prim2SF nan) with S754_nan.
  split; [reflexivity|]. by destruct (Prim2SF b).
Qed.

End FloatOrder.

(** ** Running-best loops *)

Section RunningBest.
Context {C V : Type}.
Variable better weakly : float -> float -> bool.
Hypothesis better_irrefl : forall x, better x x = false.
Hypothesis better_trans :
  forall x y z, better x y = true -> better y z = true -> better x z = true.
Hypothesis weakly_better :
  forall x y z, weakly x y = true -> better y z = true -> better x z = true.
Hypothesis better_weakly : forall x y, better x y = true -> weakly x y = true.
Variable eval : C -> option (float * V).

Lemma not_weakly (s' s b : float) :
  better s b = true -> better s' b = false -> weakly s' s = false.
Proof.
  intros Hs Hs'. destruct (weakly s' s) eqn:E; [|done].
  rewrite (weakly_better _ _ _ E Hs) in Hs'. done.
Qed.

Lemma not_better (s' s b : float) :
  better s b = true -> better s' b = false -> better s' s = false.
Proof.
  intros Hs Hs'. destruct (better s' s) eqn:E; [|done].
  rewrite (better_trans _ _ _ E Hs) in Hs'. done.
Qed.

Lemma tracked_step (init : float) (cs : list C) (st : float * option (C * V)) (c : C) :
  tracked better weakly eval init cs st ->
  tracked better weakly eval init (cs ++ [c]) (track better eval st c).
Proof.
  intros Hst. unfold track. destruct (eval c) as [[s v]|] eqn:Ec.
  - destruct Hst as [Hno | l1 c0 l2 s0 v0 Hcs Hc0 Hinit Hl1 Hl2]; simpl.
    + destruct (better s init) eqn:Hb.
      * apply (tracked_some _ _ _ _ _ cs c [] s v); auto.
        -- intros c' s' v' Hin He. eapply not_weakly; eauto.
        -- intros c' s' v' Hin. inversion Hin.
      * apply tracked_none. intros c' s' v' Hin He.
        apply elem_of_app in Hin as [Hin | Hin]; [eauto|].
        apply list_elem_of_singleton in Hin. subst c'. congruence.
    + destruct (better s s0) eqn:Hb.
      * apply (tracked_some _ _ _ _ _ cs c [] s v); auto.
        -- eauto.
        -- intros c' s' v' Hin He. subst cs.
           apply elem_of_app in Hin as [Hin | Hin].
           { destruct (weakly s' s) eqn:E; [|done].
             specialize (Hl1 _ _ _ Hin He).
             rewrite (better_weakly _ _ (weakly_better _ _ _ E Hb)) in Hl1. done. }
           apply elem_of_cons in Hin as [-> | Hin].
           { assert (s' = s0) as -> by congruence.
             destruct (weakly s0 s) eqn:E; [|done].
             pose proof (weakly_better _ _ _ E Hb) as Hcyc.
             rewrite better_irrefl in Hcyc. done. }
           eapply not_weakly; eauto.
        -- intros c' s' v' Hin. inversion Hin.
      * apply (tracked_some _ _ _ _ _ l1 c0 (l2 ++ [c]) s0 v0); auto.
        -- subst cs. rewrite <- app_assoc. reflexivity.
        -- intros c' s' v' Hin He.
           apply elem_of_app in Hin as [Hin | Hin]; [eauto|].
           apply list_elem_of_singleton in Hin. subst c'. congruence.
  - destruct Hst as [Hno | l1 c0 l2 s0 v0 Hcs Hc0 Hinit Hl1 Hl2].
    + apply tracked_none. intros c' s' v' Hin He.
      apply elem_of_app in Hin as [Hin | Hin]; [eauto|].
      apply list_elem_of_singleton in Hin. subst c'. congruence.
    + apply (tracked_some _ _ _ _ _ l1 c0 (l2 ++ [c]) s0 v0); auto.
      * subst cs. rewrite <- app_assoc. reflexivity.
      * intros c' s' v' Hin He.
        apply elem_of_app in Hin as [Hin | Hin]; [eauto|].
        apply list_elem_of_singleton in Hin. subst c'. congruence.
Qed.

Lemma tracked_loop (init : float) (cs : list C) :
  tracked better weakly eval init cs (fold_left (track better eval) cs (init, None)).
Proof.
  induction cs as [|c cs IH] using rev_ind.
  - apply tracked_none. intros c s v Hin. inversion Hin.
  - rewrite fold_left_app. simpl. apply tracked_step, IH.
Qed.

End RunningBest.

Lemma tracked_lowest {C V : Type} (eval : C -> option (float * V)) (init : float)
  (cs : list C) :
  tracked lower lower_eq eval init cs (fold_left (track lower eval) cs (init, None)).
Proof.
  apply tracked_loop; unfold lower, lower_eq.
  - apply FloatOrder.ltb_irrefl.
  - apply FloatOrder.ltb_trans.
  - apply FloatOrder.leb_ltb_trans.
  - apply FloatOrder.ltb_leb.
Qed.

Lemma tracked_highest {C V : Type} (eval : C -> option (float * V)) (init : float)
  (cs : list C) :
  tracked higher higher_eq eval init cs (fold_left (track higher eval) cs (init, None)).
Proof.
  apply tracked_loop; unfold higher, higher_eq.
  - apply FloatOrder.ltb_irrefl.
  - intros x y z Hxy Hyz. exact (FloatOrder.ltb_trans _ _ _ Hyz Hxy).
  - intros x y z Hxy Hyz. exact (FloatOrder.ltb_leb_trans _ _ _ Hyz Hxy).
  - intros x y. apply FloatOrder.ltb_leb.
Qed.

(** ** [range] *)

Lemma py_range_lookup (lo hi : Z) (i : nat) (x : Z) :
  py_range lo hi !! i = Some x -> x = lo + Z.of_nat i.
Proof.
  unfold py_range. rewrite list_lookup_fmap. intros Hx.
  destruct (seq 0 (Z.to_nat (hi - lo)) !! i) as [j|] eqn:Hj; [|done].
  apply lookup_seq in Hj as [-> _]. simpl in Hx. congruence.
Qed.

Lemma elem_of_py_range (lo hi x : Z) : x ∈ py_range lo hi <-> lo <= x < hi.
Proof.
  unfold py_range. rewrite list_elem_of_fmap. split.
  - intros (i & -> & Hi). apply elem_of_seq in Hi. lia.
  - intros Hx. exists (Z.to_nat (x - lo)). split; [lia|].
    apply elem_of_seq. lia.
Qed.

Lemma py_range_split (lo hi c : Z) (l1 l2 : list Z) :
  py_range lo hi = l1 ++ c :: l2 ->
  (forall x, x ∈ l1 -> x < c) /\ (forall x, x ∈ l2 -> c < x).
Proof.
  intros Hsplit.
  assert (c = lo + Z.of_nat (length l1)) as Hc.
  { apply (py_range_lookup lo hi). rewrite Hsplit.
    rewrite lookup_app_r by lia. by rewrite Nat.sub_diag. }
  split; intros x Hx; apply list_elem_of_lookup in Hx as [i Hi].
  - pose proof (lookup_lt_Some _ _ _ Hi) as Hlt.
    assert (x = lo + Z.of_nat i); [|lia].
    apply (py_range_lookup lo hi). rewrite Hsplit. by rewrite lookup_app_l.
  - assert (x = lo + Z.of_nat (length l1 + S i)); [|lia].
    apply (py_range_lookup lo hi). rewrite Hsplit.
    rewrite lookup_app_r by lia.
    replace (length l1 + S i - length l1)%nat with (S i) by lia. done.
Qed.

(** ** The selectors' loops are running-best loops *)

Section Loops.
Context `{Oracle}.

Lemma best_loop (better : float -> float -> bool)
  (eval : Z -> option (float * option GaussianHMM)) (step : best -> Z -> best) :
  (forall st n, step st n =
     match eval n with
     | Some (s, m) =>
         if better s (best_score st)
         then {| best_score := s; best_model := m; best_n := Some n |}
         else st
     | None => st
     end) ->
  forall cs g, fold_left step cs (held g) = held (fold_left (track better eval) cs g).
Proof.
  intros Hstep cs. induction cs as [|n cs IH]; intros g; [done|].
  simpl. rewrite <- IH. f_equal.
  rewrite Hstep. unfold track. destruct (eval n) as [[s m]|]; [|done].
  simpl. by destruct (better s g.1).
Qed.

Lemma bic_loop (self : ModelSelector) (n_obs : Z) (cs : list Z) g :
  fold_left (bic_step self n_obs) cs (held g) =
  held (fold_left (track lower (fun n => scored (bic_candidate self n_obs n))) cs g).
Proof.
  apply (best_loop lower). intros st n. unfold bic_step, scored, lower.
  by destruct (bic_candidate self n_obs n) as [[s m]|].
Qed.

Lemma dic_loop (self : ModelSelector) (cs : list Z) g :
  fold_left (dic_step self) cs (held g) =
  held (fold_left (track higher (fun n => scored (dic_candidate self n))) cs g).
Proof.
  apply (best_loop higher). intros st n. unfold dic_step, scored, higher.
  by destruct (dic_candidate self n) as [[s m]|].
Qed.

Lemma cv_loop (self : ModelSelector) (k : Z) (cs : list Z) g :
  fold_left (cv_step self k) cs (held g) =
  held (fold_left (track higher (fun n => caught (cv_candidate self k n))) cs g).
Proof.
  apply (best_loop higher). intros st n. unfold cv_step, caught, higher.
  by destruct (cv_candidate self k n) as [[s m]|].
Qed.

End Loops.

(** A running best over [range(lo, hi)], read by state count. *)
Lemma tracked_range {V : Type} (better weakly : float -> float -> bool)
  (eval : Z -> option (float * V)) (init : float) (lo hi : Z) g :
  (forall x, better x x = false) ->
  (forall x y, better x y = true -> weakly x y = true) ->
  tracked better weakly eval init (py_range lo hi) g ->
  match g.2 with
  | None =>
      g.1 = init /\
      forall n s v, lo <= n < hi -> eval n = Some (s, v) -> better s init = false
  | Some (n, v) =>
      lo <= n < hi /\ eval n = Some (g.1, v) /\ better g.1 init = true /\
      forall n' s' v', lo <= n' < hi -> eval n' = Some (s', v') ->
        better s' g.1 = false /\ (n' < n -> weakly s' g.1 = false)
  end.
Proof.
  intros Hirr Hbw Hg.
  destruct Hg as [Hno | l1 n l2 s v Hcs Hn Hinit Hl1 Hl2]; simpl.
  - split; [done|]. intros n s v Hn. apply Hno, elem_of_py_range, Hn.
  - destruct (py_range_split _ _ _ _ _ Hcs) as [Hlt Hgt].
    assert (n ∈ py_range lo hi) as Hin by (rewrite Hcs; set_solver).
    apply elem_of_py_range in Hin.
    split; [lia|]. split; [done|]. split; [done|].
    intros n' s' v' Hr He. split.
    + assert (n' ∈ py_range lo hi) as Hin' by (apply elem_of_py_range; lia).
      rewrite Hcs in Hin'.
      apply elem_of_app in Hin' as [Hin' | Hin'].
      { destruct (better s' s) eqn:E; [|done].
        specialize (Hbw _ _ E). rewrite (Hl1 _ _ _ Hin' He) in Hbw. done. }
      apply elem_of_cons in Hin' as [-> | Hin']; [|eauto].
      assert (s' = s) as -> by congruence. apply Hirr.
    + intros Hn'.
      assert (n' ∈ py_range lo hi) as Hin' by (apply elem_of_py_range; lia).
      rewrite Hcs in Hin'.
      apply elem_of_app in Hin' as [Hin' | Hin']; [eauto|].
      apply elem_of_cons in Hin' as [-> | Hin']; [lia|].
      specialize (Hgt _ Hin'). lia.
Qed.

(** * The selectors *)

Section SelectorClaims.
Context `{Oracle}.

Lemma base_model_fit (self : ModelSelector) (n : Z) (m : GaussianHMM) :
  base_model self n = Some m <->
  fit {| n_components := n; random_state := selector_random_state self;
         fitted := None |} (X self, lengths self) = Ok m.
Proof.
  unfold base_model.
  destruct (fit _ _) as [m'|e]; split; intros Hm; congruence.
Qed.

Lemma fit_n_components (m m' : GaussianHMM) (d : Xlengths) :
  fit m d = Ok m' -> n_components m' = n_components m.
Proof.
  unfold fit. destruct (hmm_fit _ _ _ _); simpl; [|done].
  intros [= <-]. done.
Qed.

Lemma base_model_n_components (self : ModelSelector) (n : Z) (m : GaussianHMM) :
  base_model self n = Some m -> n_components m = n.
Proof. intros Hm%base_model_fit. by apply fit_n_components in Hm. Qed.

Lemma float_of_int_0 : float_of_int 0 = 0%float.
Proof. reflexivity. Qed.

Lemma fold_py_iadd_float (lls : list float) (f : float) :
  fold_left py_iadd lls (PyFloat f) = PyFloat (fold_left PrimFloat.add lls f).
Proof. revert f. induction lls as [|ll lls IH]; intros f; simpl; [done|]. apply IH. Qed.

Lemma total_cons (ll : float) (lls : list float) :
  total (ll :: lls) = PyFloat (fold_left PrimFloat.add (ll :: lls) 0%float).
Proof. unfold total. simpl. rewrite float_of_int_0. apply fold_py_iadd_float. Qed.

(** With at least one score the mean of the DIC is plain float
    arithmetic. *)
Lemma DIC_floats (logL : float) (anti : list float) :
  anti <> [] ->
  DIC logL anti =
  (logL - 1 / float_of_int (Z.of_nat (length anti)) * fold_left PrimFloat.add anti 0)%float.
Proof.
  intros Hne. destruct anti as [|ll anti]; [done|].
  unfold DIC. by rewrite total_cons.
Qed.

(** The model's calls in terms of the oracle's operations. *)
Lemma fit_oracle (m m' : GaussianHMM) (d : Xlengths) :
  fit m d = Ok m' <->
  exists p,
    hmm_fit (n_components m) (random_state m) (fitted m) d = Ok p /\
    m' = {| n_components := n_components m; random_state := random_state m;
            fitted := Some p |}.
Proof.
  unfold fit. destruct (hmm_fit _ _ _ _) as [p|e]; simpl; split.
  - intros [= <-]. eauto.
  - intros (p' & [= <-] & ->). done.
  - done.
  - intros (p' & ? & _). done.
Qed.

Lemma base_model_oracle (self : ModelSelector) (n : Z) (m : GaussianHMM) :
  base_model self n = Some m <->
  exists p,
    hmm_fit n (selector_random_state self) None (X self, lengths self) = Ok p /\
    m = {| n_components := n; random_state := selector_random_state self;
           fitted := Some p |}.
Proof. rewrite base_model_fit, fit_oracle. done. Qed.


(** ** SelectorBIC *)

Lemma bic_candidate_inv (self : ModelSelector) (N n : Z) (s : float) (m : GaussianHMM) :
  bic_candidate self N n = Ok (s, m) ->
  exists m0 d logL,
    base_model self n = Some m0 /\ fit m0 (X self, lengths self) = Ok m /\
    n_features m = Ok d /\ score m (X self, lengths self) = Ok logL /\
    is_infinity (float_of_int (n ^ 2 + 2 * n * d - 1)) = false /\
    s = BIC logL n d N.
Proof.
  unfold bic_candidate.
  destruct (base_model self n) as [m0|]; simpl; [|done].
  destruct (fit m0 _) as [m1|] eqn:Hfit; simpl; [|done].
  destruct (n_features m1) as [d|] eqn:Hd; simpl; [|done].
  destruct (score m1 _) as [logL|] eqn:Hs; simpl; [|done].
  unfold py_float.
  destruct (is_infinity (float_of_int (n ^ 2 + 2 * n * d - 1))) eqn:Hp; simpl; [done|].
  intros [= <- <-]. exists m0, d, logL. done.
Qed.


Lemma scored_Some (r : res (float * GaussianHMM)) (s : float) (v : option GaussianHMM) :
  scored r = Some (s, v) <-> exists m, v = Some m /\ r = Ok (s, m).
Proof.
  destruct r as [[s' m']|e]; simpl; split.
  - intros [= -> <-]. eauto.
  - intros (m & -> & [= -> ->]). done.
  - done.
  - intros (m & _ & ?). done.
Qed.

(** A candidate of [SelectorBIC] in terms of the oracle: it has a score
    exactly when the fresh fit, the second fit and the score on the
    category's full data succeed and the parameter count converts to a
    float; the score is then the BIC of the second fit. *)
Lemma bic_candidate_oracle (self : ModelSelector) (N n : Z) (s : float) (m : GaussianHMM) :
  bic_candidate self N n = Ok (s, m) <->
  exists p0 p1 logL,
    hmm_fit n (selector_random_state self) None (X self, lengths self) = Ok p0 /\
    hmm_fit n (selector_random_state self) (Some p0) (X self, lengths self) = Ok p1 /\
    hmm_score n p1 (X self, lengths self) = Ok logL /\
    is_infinity (float_of_int (n ^ 2 + 2 * n * hmm_n_features p1 - 1)) = false /\
    m = {| n_components := n; random_state := selector_random_state self;
           fitted := Some p1 |} /\
    s = BIC logL n (hmm_n_features p1) N.
Proof.
  split.
  - intros (m0 & d & logL & Hm0 & Hfit & Hd & Hs & Hp & ->)%bic_candidate_inv.
    apply base_model_oracle in Hm0 as (p0 & Hp0 & ->).
    apply fit_oracle in Hfit as (p1 & Hp1 & ->). simpl in Hp1.
    injection Hd as <-. exists p0, p1, logL. done.
  - intros (p0 & p1 & logL & Hp0 & Hp1 & Hs & Hp & -> & ->).
    unfold bic_candidate.
    assert (base_model self n =
            Some {| n_components := n; random_state := selector_random_state self;
                    fitted := Some p0 |}) as ->
      by (apply base_model_oracle; eauto).
    unfold getattr, fit, n_features, score, py_float. simpl.
    rewrite Hp1. simpl. rewrite Hs. simpl. rewrite Hp. done.
Qed.

(** What [SelectorBIC.select] returns, by cases. *)
Lemma bic_select_cases (self : ModelSelector) :
  let N := Z.of_nat (length (X self)) in
  let candidate := bic_candidate self N in
  let searched := fun n : Z => min_n_components self <= n <= max_n_components self in
  match SelectorBIC_select self with
  | Ok (Some m) =>
      exists n s,
        searched n /\ candidate n = Ok (s, m) /\ (s <? infinity)%float = true /\
        forall n' s' m', searched n' -> candidate n' = Ok (s', m') ->
          (s' <? s)%float = false /\ (n' < n -> (s' <=? s)%float = false)
  | Ok None =>
      forall n s m, searched n -> candidate n = Ok (s, m) ->
        (s <? infinity)%float = false
  | Raise _ => False
  end.
Proof.
  intros N candidate searched.
  unfold SelectorBIC_select.
  change {| best_score := infinity; best_model := None; best_n := None |}
    with (held (infinity, None)).
  rewrite bic_loop. fold N.
  pose proof (tracked_lowest (fun n => scored (bic_candidate self N n)) infinity
                (py_range (min_n_components self) (max_n_components self + 1))) as Ht.
  apply tracked_range in Ht;
    [|apply FloatOrder.ltb_irrefl|intros x y; apply FloatOrder.ltb_leb].
  destruct (fold_left _ _ _) as [b [[n v]|]]; simpl in *.
  - destruct Ht as (Hn & Hev & Hinit & Hall).
    apply scored_Some in Hev as (m & -> & Hev). simpl.
    exists n, b. split; [unfold searched; lia|]. split; [done|]. split; [done|].
    intros n' s' m' Hn' Hc'.
    apply (Hall n' s' (Some m')); [unfold searched in Hn'; lia|].
    apply scored_Some. eauto.
  - destruct Ht as [_ Hall]. intros n s m Hn Hc.
    apply (Hall n s (Some m)); [unfold searched in Hn; lia|].
    apply scored_Some. eauto.
Qed.

(** C1. [SelectorBIC.select] never raises. A candidate [n] has a BIC
    exactly when it is fitted and scored on the category's full data (and
    its parameter count converts to a float), and the BIC is then
    [-2 * logL + (n^2 + 2*n*d - 1) * ln N], with [N] the number of frames
    of the category. The model returned is that of the candidate of the
    search range whose BIC is lowest: no candidate's BIC is below the
    winner's, and no candidate with a smaller [n] has a BIC as low. The
    result is [None] when no candidate's BIC is below the initial [+inf],
    in particular when no candidate fits. *)
Theorem SelectorBIC_select_lowest (self : ModelSelector) :
  let N := Z.of_nat (length (X self)) in
  let candidate := bic_candidate self N in
  let searched := fun n : Z => min_n_components self <= n <= max_n_components self in
  (forall n s m,
     candidate n = Ok (s, m) <->
     exists p0 p1 logL,
       hmm_fit n (selector_random_state self) None (X self, lengths self) = Ok p0 /\
       hmm_fit n (selector_random_state self) (Some p0) (X self, lengths self) = Ok p1 /\
       hmm_score n p1 (X self, lengths self) = Ok logL /\
       is_infinity (float_of_int (n ^ 2 + 2 * n * hmm_n_features p1 - 1)) = false /\
       m = {| n_components := n; random_state := selector_random_state self;
              fitted := Some p1 |} /\
       s = (-2 * logL +
            float_of_int (n ^ 2 + 2 * n * hmm_n_features p1 - 1) * np_log N)%float) /\
  match SelectorBIC_select self with
  | Ok (Some m) =>
      exists n s,
        searched n /\ candidate n = Ok (s, m) /\ (s <? infinity)%float = true /\
        forall n' s' m', searched n' -> candidate n' = Ok (s', m') ->
          (s' <? s)%float = false /\ (n' < n -> (s' <=? s)%float = false)
  | Ok None =>
      forall n s m, searched n -> candidate n = Ok (s, m) ->
        (s <? infinity)%float = false
  | Raise _ => False
  end /\
  ((forall n, searched n ->
      exists e, hmm_fit n (selector_random_state self) None (X self, lengths self)
                = Raise e) ->
   SelectorBIC_select self = Ok None).
Proof.
  intros N candidate searched.
  split; [intros n s m; apply bic_candidate_oracle|].
  pose proof (bic_select_cases self) as Hsel. cbv zeta in Hsel.
  split; [exact Hsel|].
  intros Hnone. destruct (SelectorBIC_select self) as [[m|]|e]; [|done|done].
  destruct Hsel as (n & s & Hn & Hc & _).
  apply bic_candidate_oracle in Hc as (p0 & _ & _ & Hp0 & _).
  destruct (Hnone n Hn) as [e He]. congruence.
Qed.

(** ** SelectorDIC *)

Lemma dic_anti_loop_inv (self : ModelSelector) (m : GaussianHMM) (ws : list string)
  (count : Z) (acc : pynum) (count' : Z) (acc' : pynum) :
  dic_anti_loop self m ws count acc = Ok (count', acc') ->
  exists anti,
    Forall2 (anti_score self m) (filter (fun w => w <> this_word self) ws) anti /\
    count' = count + Z.of_nat (length anti) /\
    acc' = fold_left py_iadd anti acc.
Proof.
  revert count acc. induction ws as [|w ws IH]; intros count acc; simpl.
  - intros [= <- <-]. exists []. split; [constructor|]. split; [simpl; lia|done].
  - destruct (String.eqb_spec w (this_word self)) as [->|Hne].
    + intros Hloop. apply IH in Hloop as (anti & Hanti & -> & ->).
      exists anti. rewrite filter_cons_False by (intros Hw; by apply Hw). done.
    + destruct (dict_getitem (hwords self) w) as [d|] eqn:Hd; simpl; [|done].
      destruct (score m d) as [ll|] eqn:Hll; simpl; [|done].
      intros Hloop. apply IH in Hloop as (anti & Hanti & -> & ->).
      exists (ll :: anti). rewrite filter_cons_True by done.
      split; [constructor; [by exists d|done]|]. simpl. split; [lia|done].
Qed.

(** A score that raises in the inner loop ends the loop with it. *)
Lemma dic_anti_loop_raises (self : ModelSelector) (m : GaussianHMM) (ws : list string)
  (count : Z) (acc : pynum) (w : string) (d : Xlengths) (e : exn) :
  w ∈ ws -> w <> this_word self ->
  dict_getitem (hwords self) w = Ok d -> score m d = Raise e ->
  exists e', dic_anti_loop self m ws count acc = Raise e'.
Proof.
  intros Hin Hne Hd He. revert count acc.
  induction ws as [|w' ws IH]; intros count acc; [inversion Hin|].
  simpl. destruct (String.eqb_spec w' (this_word self)) as [->|Hne'].
  - apply elem_of_cons in Hin as [->|Hin]; [done|]. by apply IH.
  - destruct (decide (w = w')) as [<-|Hww].
    + rewrite Hd. simpl. rewrite He. simpl. eauto.
    + apply elem_of_cons in Hin as [->|Hin]; [done|].
      destruct (dict_getitem (hwords self) w') as [d'|e1]; simpl; [|eauto].
      destruct (score m d') as [ll|e2]; simpl; [|eauto]. by apply IH.
Qed.

Lemma dic_candidate_inv (self : ModelSelector) (n : Z) (s : float) (m : GaussianHMM) :
  dic_candidate self n = Ok (s, m) ->
  exists m0 logL anti,
    base_model self n = Some m0 /\ fit m0 (X self, lengths self) = Ok m /\
    score m (X self, lengths self) = Ok logL /\
    Forall2 (anti_score self m) (foreign self) anti /\ anti <> [] /\
    s = DIC logL anti.
Proof.
  unfold dic_candidate.
  destruct (base_model self n) as [m0|]; simpl; [|done].
  destruct (fit m0 _) as [m1|] eqn:Hfit; simpl; [|done].
  destruct (score m1 _) as [logL|] eqn:Hs; simpl; [|done].
  destruct (dic_anti_loop _ _ _ _ _) as [[count acc]|] eqn:Hloop; simpl; [|done].
  apply dic_anti_loop_inv in Hloop as (anti & Hanti & -> & ->).
  destruct (0 + Z.of_nat (length anti) =? 0) eqn:Hz; simpl; [done|].
  intros [= <- <-]. exists m0, logL, anti.
  split; [done|]. split; [done|]. split; [done|]. split; [done|]. split.
  - intros ->. simpl in Hz. done.
  - unfold DIC, total. by rewrite Z.add_0_l.
Qed.

Lemma dic_candidate_unfit (self : ModelSelector) (n : Z) :
  base_model self n = None -> dic_candidate self n = Raise AttributeError.
Proof. unfold dic_candidate. by intros ->. Qed.

(** When every foreign category is scored, the inner loop counts them
    all and sums their scores. *)
Lemma dic_anti_loop_scores (self : ModelSelector) (m : GaussianHMM) (ws : list string)
  (count : Z) (acc : pynum) (anti : list float) :
  Forall2 (anti_score self m) (filter (fun w => w <> this_word self) ws) anti ->
  dic_anti_loop self m ws count acc =
  Ok (count + Z.of_nat (length anti), fold_left py_iadd anti acc).
Proof.
  revert count acc anti. induction ws as [|w ws IH]; intros count acc anti; simpl.
  - intros Hanti. inversion Hanti. simpl. by rewrite Z.add_0_r.
  - destruct (String.eqb_spec w (this_word self)) as [->|Hne].
    + rewrite filter_cons_False by (intros Hw; by apply Hw). apply IH.
    + rewrite filter_cons_True by done. intros Hanti.
      inversion Hanti as [|? ll ? anti' (d & Hd & Hll) Hrest]; subst.
      rewrite Hd. simpl. rewrite Hll. simpl. rewrite (IH _ _ _ Hrest).
      simpl. do 2 f_equal. lia.
Qed.

(** A candidate of [SelectorDIC] in terms of the oracle: it has a score
    exactly when the fresh fit, the second fit, the score on the
    category's own data and the score on every other category's data
    succeed and there is another category; the score is then the DIC. *)
Lemma dic_candidate_oracle (self : ModelSelector) (n : Z) (s : float) (m : GaussianHMM) :
  dic_candidate self n = Ok (s, m) <->
  exists p0 p1 logL anti,
    hmm_fit n (selector_random_state self) None (X self, lengths self) = Ok p0 /\
    hmm_fit n (selector_random_state self) (Some p0) (X self, lengths self) = Ok p1 /\
    m = {| n_components := n; random_state := selector_random_state self;
           fitted := Some p1 |} /\
    hmm_score n p1 (X self, lengths self) = Ok logL /\
    Forall2 (fun w ll => exists d, dict_getitem (hwords self) w = Ok d /\
                                   hmm_score n p1 d = Ok ll)
            (foreign self) anti /\
    anti <> [] /\
    s = (logL - 1 / float_of_int (Z.of_nat (length anti))
                * fold_left PrimFloat.add anti 0)%float.
Proof.
  split.
  - intros (m0 & logL & anti & Hm0 & Hfit & Hs & Hanti & Hne & ->)%dic_candidate_inv.
    apply base_model_oracle in Hm0 as (p0 & Hp0 & ->).
    apply fit_oracle in Hfit as (p1 & Hp1 & ->). simpl in Hp1.
    exists p0, p1, logL, anti. by rewrite DIC_floats.
  - intros (p0 & p1 & logL & anti & Hp0 & Hp1 & -> & Hs & Hanti & Hne & ->).
    rewrite <- DIC_floats by done.
    unfold dic_candidate.
    assert (base_model self n =
            Some {| n_components := n; random_state := selector_random_state self;
                    fitted := Some p0 |}) as ->
      by (apply base_model_oracle; eauto).
    unfold getattr, fit. simpl. rewrite Hp1. simpl.
    unfold score at 1. simpl. rewrite Hs. simpl.
    rewrite (dic_anti_loop_scores _ _ _ _ _ anti) by exact Hanti. simpl.
    destruct anti as [|ll anti]; [done|]. done.
Qed.

(** What [SelectorDIC.select] returns, by cases. *)
Lemma dic_select_cases (self : ModelSelector) :
  let candidate := dic_candidate self in
  let searched := fun n : Z => min_n_components self <= n <= max_n_components self in
  match SelectorDIC_select self with
  | Ok (Some m) =>
      exists n s,
        searched n /\ candidate n = Ok (s, m) /\ (neg_infinity <? s)%float = true /\
        forall n' s' m', searched n' -> candidate n' = Ok (s', m') ->
          (s <? s')%float = false /\ (n' < n -> (s <=? s')%float = false)
  | Ok None =>
      forall n s m, searched n -> candidate n = Ok (s, m) ->
        (neg_infinity <? s)%float = false
  | Raise _ => False
  end.
Proof.
  intros candidate searched.
  unfold SelectorDIC_select.
  change {| best_score := neg_infinity; best_model := None; best_n := None |}
    with (held (neg_infinity, None)).
  rewrite dic_loop.
  pose proof (tracked_highest (fun n => scored (dic_candidate self n)) neg_infinity
                (py_range (min_n_components self) (max_n_components self + 1))) as Ht.
  apply tracked_range in Ht;
    [|apply FloatOrder.ltb_irrefl|intros x y; apply FloatOrder.ltb_leb].
  destruct (fold_left _ _ _) as [b [[n v]|]]; simpl in *.
  - destruct Ht as (Hn & Hev & Hinit & Hall).
    apply scored_Some in Hev as (m & -> & Hev). simpl.
    exists n, b. split; [unfold searched; lia|]. split; [done|]. split; [done|].
    intros n' s' m' Hn' Hc'.
    apply (Hall n' s' (Some m')); [unfold searched in Hn'; lia|].
    apply scored_Some. eauto.
  - destruct Ht as [_ Hall]. intros n s m Hn Hc.
    apply (Hall n s (Some m)); [unfold searched in Hn; lia|].
    apply scored_Some. eauto.
Qed.

(** C3. [SelectorDIC.select] never raises. A candidate [n] has a DIC
    exactly when it is fitted and scored on the category's own data and on
    the data of every other category of [hwords] (and there is one), and
    the DIC is then the score on its own data minus the mean of the scores
    on the others. The model returned is that of the candidate of the
    search range whose DIC is highest: no candidate's DIC is above the
    winner's, and no candidate with a smaller [n] has a DIC as high. The
    result is [None] when no candidate's DIC is above the initial [-inf],
    in particular when no candidate fits. *)
Theorem SelectorDIC_select_highest (self : ModelSelector) :
  let candidate := dic_candidate self in
  let searched := fun n : Z => min_n_components self <= n <= max_n_components self in
  (forall n s m,
     candidate n = Ok (s, m) <->
     exists p0 p1 logL anti,
       hmm_fit n (selector_random_state self) None (X self, lengths self) = Ok p0 /\
       hmm_fit n (selector_random_state self) (Some p0) (X self, lengths self) = Ok p1 /\
       m = {| n_components := n; random_state := selector_random_state self;
              fitted := Some p1 |} /\
       hmm_score n p1 (X self, lengths self) = Ok logL /\
       Forall2 (fun w ll => exists d, dict_getitem (hwords self) w = Ok d /\
                                      hmm_score n p1 d = Ok ll)
               (foreign self) anti /\
       anti <> [] /\
       s = (logL - 1 / float_of_int (Z.of_nat (length anti))
                   * fold_left PrimFloat.add anti 0)%float) /\
  match SelectorDIC_select self with
  | Ok (Some m) =>
      exists n s,
        searched n /\ candidate n = Ok (s, m) /\ (neg_infinity <? s)%float = true /\
        forall n' s' m', searched n' -> candidate n' = Ok (s', m') ->
          (s <? s')%float = false /\ (n' < n -> (s <=? s')%float = false)
  | Ok None =>
      forall n s m, searched n -> candidate n = Ok (s, m) ->
        (neg_infinity <? s)%float = false
  | Raise _ => False
  end /\
  ((forall n, searched n ->
      exists e, hmm_fit n (selector_random_state self) None (X self, lengths self)
                = Raise e) ->
   SelectorDIC_select self = Ok None).
Proof.
  intros candidate searched.
  split; [intros n s m; apply dic_candidate_oracle|].
  pose proof (dic_select_cases self) as Hsel. cbv zeta in Hsel.
  split; [exact Hsel|].
  intros Hnone. destruct (SelectorDIC_select self) as [[m|]|e]; [|done|done].
  destruct Hsel as (n & s & Hn & Hc & _).
  apply dic_candidate_oracle in Hc as (p0 & _ & _ & _ & Hp0 & _).
  destruct (Hnone n Hn) as [e He]. congruence.
Qed.

(** C5 (as amended). In [SelectorDIC.select] a score that raises against
    any foreign category skips the candidate entirely, exactly as a failure
    to fit it does: the loop's variables stay as they were. A candidate
    that is scored averages over every other category, so the count of
    averaged categories is the same for every candidate. *)
Theorem SelectorDIC_foreign_failure_skips (self : ModelSelector) (n : Z) :
  (forall m0 m w d e,
     base_model self n = Some m0 -> fit m0 (X self, lengths self) = Ok m ->
     w ∈ foreign self -> dict_getitem (hwords self) w = Ok d ->
     score m d = Raise e ->
     (exists e', dic_candidate self n = Raise e') /\
     forall st, dic_step self st n = st) /\
  (base_model self n = None ->
     (exists e', dic_candidate self n = Raise e') /\
     forall st, dic_step self st n = st) /\
  (forall s m, dic_candidate self n = Ok (s, m) ->
     exists logL anti,
       Forall2 (anti_score self m) (foreign self) anti /\
       length anti = length (foreign self) /\ s = DIC logL anti).
Proof.
  assert (forall e', dic_candidate self n = Raise e' ->
          forall st, dic_step self st n = st) as Hskip.
  { intros e' He st. unfold dic_step. by rewrite He. }
  split; [|split].
  - intros m0 m w d e Hm0 Hfit Hw Hd He.
    assert (exists e', dic_candidate self n = Raise e') as [e' He'].
    { unfold dic_candidate. rewrite Hm0. simpl. rewrite Hfit. simpl.
      destruct (score m (X self, lengths self)) as [logL|e1]; simpl; [|eauto].
      apply list_elem_of_filter in Hw as [Hne Hw].
      destruct (dic_anti_loop_raises self m (dict_keys (hwords self)) 0 (PyInt 0)
                  w d e Hw Hne Hd He) as [e2 ->].
      simpl. eauto. }
    eauto.
  - intros Hnone. apply dic_candidate_unfit in Hnone. eauto.
  - intros s m (m0 & logL & anti & _ & _ & _ & Hanti & _ & ->)%dic_candidate_inv.
    exists logL, anti. split; [done|]. split; [|done].
    symmetry. by eapply Forall2_length.
Qed.

(** ** SelectorCV *)

Lemma length_kfold_tests (sizes : list nat) (start : nat) :
  length (kfold_tests sizes start) = length sizes.
Proof.
  revert start. induction sizes as [|sz sizes IH]; intros start; simpl; [done|].
  by rewrite IH.
Qed.

(** [KFold] yields exactly [k] folds, and only for [2 <= k <= n]. *)
Lemma KFold_split_Ok (k : Z) (n : nat) (split : list (list nat * list nat)) :
  KFold_split k n = Ok split ->
  2 <= k <= Z.of_nat n /\ Z.of_nat (length split) = k.
Proof.
  unfold KFold_split.
  destruct (Z.leb_spec k 1); [done|].
  destruct (Z.ltb_spec (Z.of_nat n) k); [done|].
  intros [= <-]. split; [lia|].
  rewrite length_map, length_kfold_tests. unfold kfold_sizes.
  rewrite length_map, length_seq. lia.
Qed.

Lemma cv_fold_loop_folds (self : ModelSelector) (model : option GaussianHMM)
  (split : list (list nat * list nat)) (acc : pynum)
  (v : option GaussianHMM) (acc' : pynum) :
  cv_fold_loop self model split acc = Ok (v, acc') <->
  exists lls, cv_folds self model split lls v /\ acc' = fold_left py_iadd lls acc.
Proof.
  revert model acc. induction split as [|fold split IH]; intros model acc; simpl.
  - split.
    + intros [= <- <-]. exists []. split; [constructor|done].
    + intros (lls & Hf & ->). inversion Hf; subst. done.
  - split.
    + destruct (cv_fold self model fold) as [[m ll]|] eqn:Hfold; simpl; [|done].
      intros (lls & Hf & ->)%IH. exists (ll :: lls). split; [|done].
      by econstructor.
    + intros (lls & Hf & ->). inversion Hf as [|? ? ? m ll lls' ? Hfold Hrest]; subst.
      rewrite Hfold. simpl. apply IH. eauto.
Qed.

Lemma cv_folds_length (self : ModelSelector) model split lls v :
  cv_folds self model split lls v -> length lls = length split.
Proof. induction 1; simpl; congruence. Qed.

Lemma fit_random_state (m m' : GaussianHMM) (d : Xlengths) :
  fit m d = Ok m' -> random_state m' = random_state m.
Proof.
  unfold fit. destruct (hmm_fit _ _ _ _); simpl; [|done].
  intros [= <-]. done.
Qed.

Lemma cv_fold_n_components (self : ModelSelector) (m0 m : GaussianHMM) fold ll :
  cv_fold self (Some m0) fold = Ok (m, ll) ->
  n_components m = n_components m0 /\ random_state m = random_state m0.
Proof.
  unfold cv_fold.
  destruct (combine_sequences fold.1 _) as [train|]; simpl; [|done].
  destruct (combine_sequences fold.2 _) as [test|]; simpl; [|done].
  destruct (fit m0 train) as [m1|] eqn:Hfit; simpl; [|done].
  destruct (score m1 test); simpl; [|done].
  intros [= <- _]. split; [by eapply fit_n_components|by eapply fit_random_state].
Qed.

Lemma cv_fold_unfit (self : ModelSelector) fold m ll :
  cv_fold self None fold = Ok (m, ll) -> False.
Proof.
  unfold cv_fold.
  destruct (combine_sequences fold.1 _) as [train|]; simpl; [|done].
  destruct (combine_sequences fold.2 _) as [test|]; simpl; done.
Qed.

(** Over at least one fold the loop needs a fitted object to start from
    and ends with the same object, at the same state count. *)
Lemma cv_folds_model (self : ModelSelector) model split lls v :
  cv_folds self model split lls v -> split <> [] ->
  exists m0 m, model = Some m0 /\ v = Some m /\
    n_components m = n_components m0 /\ random_state m = random_state m0.
Proof.
  induction 1 as [|model fold split m ll lls v Hfold Hrest IH]; [done|].
  intros _. destruct model as [m0|]; [|by apply cv_fold_unfit in Hfold].
  apply cv_fold_n_components in Hfold as [Hn Hseed].
  destruct split as [|fold' split].
  - inversion Hrest; subst. exists m0, m. done.
  - destruct IH as (m1 & m2 & [= <-] & -> & Hn' & Hseed'); [done|].
    exists m0, m2. split; [done|]. split; [done|]. split; congruence.
Qed.

Lemma cv_folds_app (self : ModelSelector) model s1 s2 lls v :
  cv_folds self model (s1 ++ s2) lls v ->
  exists l1 l2 mid, lls = l1 ++ l2 /\
    cv_folds self model s1 l1 mid /\ cv_folds self mid s2 l2 v.
Proof.
  revert model lls. induction s1 as [|fold s1 IH]; intros model lls; simpl.
  - intros Hf. exists [], lls, model. split; [done|]. split; [constructor|done].
  - intros Hf. inversion Hf as [|? ? ? m ll lls' ? Hfold Hrest]; subst.
    apply IH in Hrest as (l1 & l2 & mid & -> & H1 & H2).
    exists (ll :: l1), l2, mid. split; [done|]. split; [by econstructor|done].
Qed.

Lemma cv_folds_unique (self : ModelSelector) model split l1 v1 l2 v2 :
  cv_folds self model split l1 v1 -> cv_folds self model split l2 v2 ->
  l1 = l2 /\ v1 = v2.
Proof.
  intros H1. revert l2 v2.
  induction H1 as [|model fold split m ll lls v Hfold Hrest IH]; intros l2 v2 H2.
  - by inversion H2.
  - inversion H2 as [|? ? ? m' ll' lls' ? Hfold' Hrest']; subst.
    rewrite Hfold in Hfold'. injection Hfold' as <- <-.
    destruct (IH _ _ Hrest') as [-> ->]. done.
Qed.

Lemma cv_fold_loop_app (self : ModelSelector) model s1 s2 acc :
  cv_fold_loop self model (s1 ++ s2) acc =
  (r ← cv_fold_loop self model s1 acc; cv_fold_loop self r.1 s2 r.2).
Proof.
  revert model acc. induction s1 as [|fold s1 IH]; intros model acc; simpl; [done|].
  destruct (cv_fold self model fold) as [[m ll]|]; simpl; [|done]. apply IH.
Qed.

Lemma cv_candidate_inv (self : ModelSelector) (k n : Z) (s : float)
  (v : option GaussianHMM) :
  cv_candidate self k n = Ok (s, v) ->
  exists split lls,
    KFold_split k (length (sequences self)) = Ok split /\
    cv_folds self (base_model self n) split lls v /\
    Z.of_nat (length lls) = k /\ s = mean lls.
Proof.
  unfold cv_candidate.
  destruct (KFold_split _ _) as [split|] eqn:Hsplit; simpl; [|done].
  destruct (cv_fold_loop _ _ _ _) as [[v' acc]|] eqn:Hloop; simpl; [|done].
  apply cv_fold_loop_folds in Hloop as (lls & Hfolds & ->).
  apply KFold_split_Ok in Hsplit as Hk. destruct Hk as [Hk Hlen].
  pose proof (cv_folds_length _ _ _ _ _ Hfolds) as Hlls.
  destruct lls as [|ll lls]; [simpl in Hlls; lia|].
  fold (total (ll :: lls)). rewrite total_cons. simpl.
  intros [= <- <-]. exists split, (ll :: lls).
  split; [done|]. split; [done|]. split; [lia|].
  unfold mean. do 2 f_equal. lia.
Qed.

Lemma cv_candidate_folds (self : ModelSelector) (k n : Z) split lls v :
  KFold_split k (length (sequences self)) = Ok split ->
  cv_folds self (base_model self n) split lls v ->
  cv_candidate self k n = Ok (mean lls, v).
Proof.
  intros Hsplit Hfolds. unfold cv_candidate. rewrite Hsplit. simpl.
  assert (cv_fold_loop self (base_model self n) split (PyInt 0) = Ok (v, total lls))
    as -> by (apply cv_fold_loop_folds; eauto).
  simpl. apply KFold_split_Ok in Hsplit as [Hk Hlen].
  pose proof (cv_folds_length _ _ _ _ _ Hfolds) as Hlls.
  destruct lls as [|ll lls]; [simpl in Hlls; lia|].
  rewrite total_cons. unfold mean.
  replace k with (Z.of_nat (length (ll :: lls))) by lia. done.
Qed.

Lemma cv_candidate_fold_raises (self : ModelSelector) (k n : Z) s1 fold s2 lls mid e :
  KFold_split k (length (sequences self)) = Ok (s1 ++ fold :: s2) ->
  cv_folds self (base_model self n) s1 lls mid ->
  cv_fold self mid fold = Raise e ->
  cv_candidate self k n = Raise e.
Proof.
  intros Hsplit Hfolds Hfold. unfold cv_candidate. rewrite Hsplit. simpl.
  rewrite cv_fold_loop_app.
  assert (cv_fold_loop self (base_model self n) s1 (PyInt 0) = Ok (mid, total lls))
    as -> by (apply cv_fold_loop_folds; eauto).
  simpl. rewrite Hfold. done.
Qed.

(** What the search loop of [SelectorCV.select] holds when it ends. *)
Lemma cv_search_winner (self : ModelSelector) :
  let k := Z.min 3 (Z.of_nat (length (sequences self))) in
  let searched := fun n : Z => min_n_components self <= n <= max_n_components self in
  match best_n (cv_search self) with
  | Some n =>
      searched n /\
      cv_candidate self k n = Ok (best_score (cv_search self), best_model (cv_search self)) /\
      (neg_infinity <? best_score (cv_search self))%float = true /\
      forall n' s' v', searched n' -> cv_candidate self k n' = Ok (s', v') ->
        (best_score (cv_search self) <? s')%float = false /\
        (n' < n -> (best_score (cv_search self) <=? s')%float = false)
  | None =>
      best_model (cv_search self) = None /\
      forall n s v, searched n -> cv_candidate self k n = Ok (s, v) ->
        (neg_infinity <? s)%float = false
  end.
Proof.
  intros k searched. unfold cv_search.
  change {| best_score := neg_infinity; best_model := None; best_n := None |}
    with (held (neg_infinity, None)).
  rewrite cv_loop. fold k.
  pose proof (tracked_highest (fun n => caught (cv_candidate self k n)) neg_infinity
                (py_range (min_n_components self) (max_n_components self + 1))) as Ht.
  apply tracked_range in Ht;
    [|apply FloatOrder.ltb_irrefl|intros x y; apply FloatOrder.ltb_leb].
  destruct (fold_left _ _ _) as [b [[n v]|]]; simpl in *.
  - destruct Ht as (Hn & Hev & Hinit & Hall).
    split; [unfold searched; lia|].
    split; [by destruct (cv_candidate self k n) as [[? ?]|]; simplify_eq/=|].
    split; [done|].
    intros n' s' v' Hn' Hc'. apply (Hall n' s' v'); [unfold searched in Hn'; lia|].
    by rewrite Hc'.
  - destruct Ht as [_ Hall]. split; [done|]. intros n s v Hn Hc.
    apply (Hall n s v); [unfold searched in Hn; lia|]. by rewrite Hc.
Qed.

(** [combine_sequences] picks the sequences at the given indices, in
    order. *)
Lemma take_sequences_chosen (idx : list nat) (seqs chosen : list sequence) :
  take_sequences idx seqs = Ok chosen <->
  Forall2 (fun i s => seqs !! i = Some s) idx chosen.
Proof.
  revert chosen. induction idx as [|i idx IH]; intros chosen; simpl.
  - split; [intros [= <-]; constructor|intros Hf; by inversion Hf].
  - destruct (seqs !! i) as [s0|] eqn:Hi; simpl.
    + destruct (take_sequences idx seqs) as [rest|] eqn:Hrest; simpl; split.
      * intros [= <-]. constructor; [done|]. by apply IH.
      * intros Hf. inversion Hf as [|? s1 ? rest' Hs1 Hr]; subst.
        apply IH in Hr. congruence.
      * done.
      * intros Hf. inversion Hf as [|? s1 ? rest' Hs1 Hr]; subst.
        apply IH in Hr. done.
    + split; [done|]. intros Hf. inversion Hf; subst. congruence.
Qed.

Lemma combine_sequences_chosen (idx : list nat) (seqs : list sequence) (xl : Xlengths) :
  combine_sequences idx seqs = Ok xl <->
  exists chosen,
    Forall2 (fun i s => seqs !! i = Some s) idx chosen /\ xl = as_Xlengths chosen.
Proof.
  unfold combine_sequences.
  destruct (take_sequences idx seqs) as [chosen|] eqn:Hc; simpl; split.
  - intros [= <-]. exists chosen. split; [by apply take_sequences_chosen|done].
  - intros (chosen' & Hf%take_sequences_chosen & ->).
    rewrite Hc in Hf. by injection Hf as <-.
  - done.
  - intros (chosen' & Hf%take_sequences_chosen & _). congruence.
Qed.

(** One fold in terms of the oracle: the object is fitted on the sequences
    at the fold's training indices and scored on the sequences at its
    held-out indices. *)
Lemma cv_fold_oracle (self : ModelSelector) (model : option GaussianHMM)
  (fold : list nat * list nat) (m' : GaussianHMM) (ll : float) :
  cv_fold self model fold = Ok (m', ll) <->
  exists m train held p,
    model = Some m /\
    Forall2 (fun i s => sequences self !! i = Some s) fold.1 train /\
    Forall2 (fun i s => sequences self !! i = Some s) fold.2 held /\
    hmm_fit (n_components m) (random_state m) (fitted m) (as_Xlengths train) = Ok p /\
    m' = {| n_components := n_components m; random_state := random_state m;
            fitted := Some p |} /\
    hmm_score (n_components m) p (as_Xlengths held) = Ok ll.
Proof.
  unfold cv_fold. split.
  - destruct (combine_sequences fold.1 _) as [xtrain|] eqn:Htrain; simpl; [|done].
    destruct (combine_sequences fold.2 _) as [xheld|] eqn:Hheld; simpl; [|done].
    destruct model as [m|]; simpl; [|done].
    destruct (fit m xtrain) as [m1|] eqn:Hfit; simpl; [|done].
    destruct (score m1 xheld) as [ll1|] eqn:Hscore; simpl; [|done].
    intros [= <- <-].
    apply combine_sequences_chosen in Htrain as (train & Htrain & ->).
    apply combine_sequences_chosen in Hheld as (held & Hheld & ->).
    apply fit_oracle in Hfit as (p & Hp & ->).
    exists m, train, held, p. done.
  - intros (m & train & held & p & -> & Htrain & Hheld & Hp & -> & Hscore).
    assert (combine_sequences fold.1 (sequences self) = Ok (as_Xlengths train)) as ->
      by (apply combine_sequences_chosen; eauto).
    assert (combine_sequences fold.2 (sequences self) = Ok (as_Xlengths held)) as ->
      by (apply combine_sequences_chosen; eauto).
    simpl. unfold fit. rewrite Hp. simpl. unfold score. simpl. rewrite Hscore. done.
Qed.

(** C4. [SelectorCV] cross-validates with [k = min(3, number of
    sequences)] folds. In each fold the model object, first built by
    [base_model], is fitted on the sequences at the fold's training
    indices and scored on the sequences at its held-out indices. A
    candidate has a score exactly when every one of the [k] folds is
    fitted and scored without raising, and the score is then the mean of
    the [k] held-out scores; a fold that raises excludes the candidate
    (the loop's variables stay as they were). The search keeps the
    candidate with the highest mean: no candidate's mean is above it, and
    no candidate with a smaller [n] has a mean as high. *)
Theorem SelectorCV_mean_of_k_folds (self : ModelSelector) :
  let k := Z.min 3 (Z.of_nat (length (sequences self))) in
  let candidate := cv_candidate self k in
  let searched := fun n : Z => min_n_components self <= n <= max_n_components self in
  (forall n m,
     base_model self n = Some m <->
     exists p,
       hmm_fit n (selector_random_state self) None (X self, lengths self) = Ok p /\
       m = {| n_components := n; random_state := selector_random_state self;
              fitted := Some p |}) /\
  (forall model fold m' ll,
     cv_fold self model fold = Ok (m', ll) <->
     exists m train held p,
       model = Some m /\
       Forall2 (fun i s => sequences self !! i = Some s) fold.1 train /\
       Forall2 (fun i s => sequences self !! i = Some s) fold.2 held /\
       hmm_fit (n_components m) (random_state m) (fitted m)
         (concat train, map (fun s : sequence => Z.of_nat (length s)) train) = Ok p /\
       m' = {| n_components := n_components m; random_state := random_state m;
               fitted := Some p |} /\
       hmm_score (n_components m) p
         (concat held, map (fun s : sequence => Z.of_nat (length s)) held) = Ok ll) /\
  (forall n s v, candidate n = Ok (s, v) ->
     exists split lls,
       KFold_split k (length (sequences self)) = Ok split /\
       cv_folds self (base_model self n) split lls v /\
       Z.of_nat (length lls) = k /\
       s = (fold_left PrimFloat.add lls 0 / float_of_int k)%float) /\
  (forall n split lls v,
     KFold_split k (length (sequences self)) = Ok split ->
     cv_folds self (base_model self n) split lls v ->
     Z.of_nat (length lls) = k /\
     candidate n = Ok ((fold_left PrimFloat.add lls 0 / float_of_int k)%float, v)) /\
  (forall n s1 fold s2 lls mid e,
     KFold_split k (length (sequences self)) = Ok (s1 ++ fold :: s2) ->
     cv_folds self (base_model self n) s1 lls mid ->
     cv_fold self mid fold = Raise e ->
     candidate n = Raise e /\ forall st, cv_step self k st n = st) /\
  match best_n (cv_search self) with
  | Some n =>
      searched n /\
      candidate n = Ok (best_score (cv_search self), best_model (cv_search self)) /\
      (neg_infinity <? best_score (cv_search self))%float = true /\
      forall n' s' v', searched n' -> candidate n' = Ok (s', v') ->
        (best_score (cv_search self) <? s')%float = false /\
        (n' < n -> (best_score (cv_search self) <=? s')%float = false)
  | None =>
      best_model (cv_search self) = None /\
      forall n s v, searched n -> candidate n = Ok (s, v) ->
        (neg_infinity <? s)%float = false
  end.
Proof.
  intros k candidate searched.
  split; [intros n m; apply base_model_oracle|].
  split; [intros model fold m' ll; apply cv_fold_oracle|].
  split.
  { intros n s v (sp & lls & Hsplit & Hfolds & Hlen & ->)%cv_candidate_inv.
    exists sp, lls. split; [done|]. split; [done|]. split; [done|].
    unfold mean. by rewrite Hlen. }
  split.
  { intros n sp lls v Hsplit Hfolds.
    assert (Z.of_nat (length lls) = k) as Hlen.
    { apply KFold_split_Ok in Hsplit as [_ Hlen].
      rewrite (cv_folds_length _ _ _ _ _ Hfolds). done. }
    split; [done|].
    unfold candidate. rewrite (cv_candidate_folds _ _ _ _ _ _ Hsplit Hfolds).
    unfold mean. by rewrite Hlen. }
  split; [|apply cv_search_winner].
  intros n s1 fold s2 lls mid e Hsplit Hfolds Hfold.
  pose proof (cv_candidate_fold_raises _ _ n _ _ _ _ _ _ Hsplit Hfolds Hfold) as Hc.
  split; [done|]. intros st. unfold cv_step. by rewrite Hc.
Qed.

(** C9. On a category with a single sequence [SelectorCV.select] does not
    raise: the fold count is 1, [KFold] refuses it for every candidate,
    each candidate is skipped, and the result is [None]. *)
Theorem SelectorCV_select_single_sequence (self : ModelSelector) :
  length (sequences self) = 1%nat ->
  (forall n, cv_candidate self 1 n = Raise ValueError) /\
  SelectorCV_select self = Ok None.
Proof.
  intros Hone.
  assert (forall n, cv_candidate self 1 n = Raise ValueError) as Hc.
  { intros n. unfold cv_candidate. by rewrite Hone. }
  split; [done|].
  pose proof (cv_search_winner self) as Hw. simpl in Hw. rewrite Hone in Hw.
  change (Z.min 3 (Z.of_nat 1)) with 1 in Hw.
  unfold SelectorCV_select.
  destruct (best_n (cv_search self)) as [n|].
  - destruct Hw as (_ & Hn & _). by rewrite Hc in Hn.
  - destruct Hw as [-> _]. done.
Qed.

(** [SelectorConstant], [SelectorBIC] and [SelectorDIC] return; and
    [SelectorCV] raises exactly when the final refit of the winner does. *)
Lemma SelectorConstant_select_returns (self : ModelSelector) :
  SelectorConstant_select self = Ok (base_model self (n_constant self)).
Proof. reflexivity. Qed.

Lemma SelectorBIC_select_returns (self : ModelSelector) :
  exists r, SelectorBIC_select self = Ok r.
Proof. unfold SelectorBIC_select. eauto. Qed.

Lemma SelectorDIC_select_returns (self : ModelSelector) :
  exists r, SelectorDIC_select self = Ok r.
Proof. unfold SelectorDIC_select. eauto. Qed.

Lemma SelectorCV_select_raises (self : ModelSelector) (e : exn) :
  SelectorCV_select self = Raise e <->
  exists m, best_model (cv_search self) = Some m /\
            fit m (X self, lengths self) = Raise e.
Proof.
  unfold SelectorCV_select.
  destruct (best_model (cv_search self)) as [m|]; split.
  - destruct (fit m _) as [m'|e'] eqn:Hfit; simpl; [done|].
    intros [= ->]. eauto.
  - intros (m1 & [= <-] & ->). done.
  - done.
  - intros (m1 & ? & _). done.
Qed.

End SelectorClaims.

(** * The recognizer *)

Section RecognizerClaims.
Context `{Oracle}.

Lemma dict_getitem_key {V : Type} (d : list (string * V)) (k : string) :
  k ∈ dict_keys d <-> exists v, dict_getitem d k = Ok v.
Proof.
  induction d as [|[k' v'] d IH]; simpl.
  - split; [intros Hk; inversion Hk|intros [v ?]; done].
  - destruct (String.eqb_spec k' k) as [->|Hne].
    + split; [eauto|]. intros _. apply elem_of_cons. by left.
    + rewrite <- IH. unfold dict_keys. simpl. rewrite elem_of_cons.
      split; [intros [?|?]; [congruence|done]|by right].
Qed.

(** The score a category is recorded with: its model's score of the
    item, and [-inf] when scoring raises (or there is no model). *)
Lemma word_score_cases (models : list (string * option GaussianHMM)) (d : Xlengths)
  (w : string) (m : option GaussianHMM) :
  dict_getitem models w = Ok m ->
  match (model ← getattr m; score model d) with
  | Ok ll => word_score models d w = ll
  | Raise _ => word_score models d w = neg_infinity
  end.
Proof. intros Hm. unfold word_score. rewrite Hm. simpl. by destruct (_ ≫= _). Qed.

(** The loop over the categories: the score map is filled key by key, and
    the best score and guess are a running best. *)
Lemma recognize_item_loop (models : list (string * option GaussianHMM)) (d : Xlengths)
  (ws : list string) (probs : gmap string float) (g : float * option (string * unit)) :
  fold_left (recognize_word models d) ws (probs, g.1, fst <$> g.2) =
  let g' := fold_left (track higher (fun w => Some (word_score models d w, tt))) ws g in
  (fold_left (fun (p : gmap string float) w => <[w := word_score models d w]> p) ws probs,
   g'.1, fst <$> g'.2).
Proof.
  revert probs g. induction ws as [|w ws IH]; intros probs g; [done|].
  simpl. rewrite <- IH. f_equal.
  unfold recognize_word, track, higher. simpl.
  by destruct (g.1 <? word_score models d w)%float.
Qed.

Lemma lookup_fold_insert (f : string -> float) (ws : list string)
  (probs : gmap string float) (w : string) :
  fold_left (fun (p : gmap string float) w => <[w := f w]> p) ws probs !! w =
  if decide (w ∈ ws) then Some (f w) else probs !! w.
Proof.
  revert probs. induction ws as [|w' ws IH]; intros probs; simpl.
  - destruct (decide (w ∈ [])) as [Hin|_]; [by apply elem_of_nil in Hin|done].
  - rewrite IH.
    destruct (decide (w ∈ ws)) as [Hin|Hnin];
      destruct (decide (w ∈ w' :: ws)) as [Hin'|Hnin']; try done.
    + exfalso. apply Hnin', elem_of_cons. by right.
    + apply elem_of_cons in Hin' as [->|?]; [|done]. by rewrite lookup_insert_eq.
    + rewrite lookup_insert_ne; [done|]. intros ->. apply Hnin', elem_of_cons. by left.
Qed.

Lemma recognize_item_probs (models : list (string * option GaussianHMM)) (d : Xlengths)
  (w : string) :
  (recognize_item models d).1.1 !! w =
  if decide (w ∈ dict_keys models) then Some (word_score models d w) else None.
Proof.
  unfold recognize_item.
  rewrite (recognize_item_loop models d (dict_keys models) ∅ (neg_infinity, None)).
  simpl. rewrite lookup_fold_insert. by rewrite lookup_empty.
Qed.

Lemma recognize_item_guess (models : list (string * option GaussianHMM)) (d : Xlengths) :
  let sc := word_score models d in
  match (recognize_item models d).2 with
  | Some w =>
      exists l1 l2,
        dict_keys models = l1 ++ w :: l2 /\
        (neg_infinity <? sc w)%float = true /\
        (forall w', w' ∈ dict_keys models -> (sc w <? sc w')%float = false) /\
        (forall w', w' ∈ l1 -> (sc w <=? sc w')%float = false)
  | None =>
      forall w', w' ∈ dict_keys models -> (neg_infinity <? sc w')%float = false
  end.
Proof.
  intros sc. unfold recognize_item.
  rewrite (recognize_item_loop models d (dict_keys models) ∅ (neg_infinity, None)).
  simpl.
  pose proof (tracked_highest (fun w => Some (sc w, tt)) neg_infinity
                (dict_keys models)) as Ht.
  fold sc. destruct Ht as [Hno | l1 w l2 s [] Hcs Hw Hinit Hl1 Hl2]; simpl.
  - intros w' Hw'. by apply (Hno w' (sc w') tt).
  - injection Hw as <-. exists l1, l2. split; [done|]. split; [done|]. split.
    + intros w' Hw'. rewrite Hcs in Hw'.
      apply elem_of_app in Hw' as [Hw' | Hw'].
      { specialize (Hl1 w' (sc w') tt Hw' eq_refl). unfold higher_eq in Hl1.
        destruct (sc w <? sc w')%float eqn:E; [|done].
        apply FloatOrder.ltb_leb in E. congruence. }
      apply elem_of_cons in Hw' as [-> | Hw'].
      { apply FloatOrder.ltb_irrefl. }
      by apply (Hl2 w' (sc w') tt).
    + intros w' Hw'. by apply (Hl1 w' (sc w') tt).
Qed.

Lemma fold_left_snoc_pair {A B I : Type} (f : I -> A) (g : I -> B) (l : list I)
  (a : list A) (b : list B) :
  fold_left (fun (acc : list A * list B) (i : I) => (acc.1 ++ [f i], acc.2 ++ [g i]))
    l (a, b) = (a ++ map f l, b ++ map g l).
Proof.
  revert a b. induction l as [|i l IH]; intros a b; simpl.
  - by rewrite !app_nil_r.
  - rewrite IH. by rewrite <- !app_assoc.
Qed.

(** The two output lists, item by item. *)
Lemma recognize_items (models : list (string * option GaussianHMM)) (test_set : SinglesData) :
  recognize models test_set =
  (map (fun i => (recognize_item models (get_item_Xlengths test_set i)).1.1)
       (seq 0 (num_items test_set)),
   map (fun i => (recognize_item models (get_item_Xlengths test_set i)).2)
       (seq 0 (num_items test_set))).
Proof.
  unfold recognize.
  apply (fold_left_snoc_pair
           (fun i => (recognize_item models (get_item_Xlengths test_set i)).1.1)
           (fun i => (recognize_item models (get_item_Xlengths test_set i)).2)).
Qed.

Lemma recognize_lookup (models : list (string * option GaussianHMM)) (test_set : SinglesData)
  (i : nat) :
  (i < num_items test_set)%nat ->
  (recognize models test_set).1 !! i =
    Some (recognize_item models (get_item_Xlengths test_set i)).1.1 /\
  (recognize models test_set).2 !! i =
    Some (recognize_item models (get_item_Xlengths test_set i)).2.
Proof.
  intros Hi. rewrite recognize_items. simpl.
  rewrite !list_lookup_fmap, !lookup_seq_lt by done. done.
Qed.

Lemma recognize_lookup_inv (models : list (string * option GaussianHMM))
  (test_set : SinglesData) (i : nat) :
  ((forall probs, (recognize models test_set).1 !! i = Some probs ->
      (i < num_items test_set)%nat) /\
   (forall guess, (recognize models test_set).2 !! i = Some guess ->
      (i < num_items test_set)%nat)).
Proof.
  rewrite recognize_items. simpl.
  split; intros x Hx; apply lookup_lt_Some in Hx;
    by rewrite length_map, length_seq in Hx.
Qed.

Lemma recognize_item_lookup (models : list (string * option GaussianHMM)) (d : Xlengths)
  (w : string) (s : float) :
  (recognize_item models d).1.1 !! w = Some s <->
  w ∈ dict_keys models /\ s = word_score models d w.
Proof.
  rewrite recognize_item_probs.
  destruct (decide (w ∈ dict_keys models)); split.
  - intros [= <-]. done.
  - intros [_ ->]. done.
  - done.
  - intros [? _]. done.
Qed.

Lemma recognize_item_none (models : list (string * option GaussianHMM)) (d : Xlengths) :
  (recognize_item models d).2 = None <->
  forall w, w ∈ dict_keys models -> (neg_infinity <? word_score models d w)%float = false.
Proof.
  pose proof (recognize_item_guess models d) as Hg. simpl in Hg.
  destruct (recognize_item models d).2 as [w|]; split; try done.
  intros Hall. destruct Hg as (l1 & l2 & Hkeys & Habove & _).
  rewrite Hall in Habove; [done|]. rewrite Hkeys. set_solver.
Qed.

(** C8. The recognizer returns one score map per test item, and every
    score map has exactly the categories of [models] as its keys: a
    category whose model scores the item is recorded with that score, and
    one whose scoring raises (or that has no model) with [-inf]. *)
Theorem recognize_scores_every_category (models : list (string * option GaussianHMM))
  (test_set : SinglesData) :
  length (recognize models test_set).1 = num_items test_set /\
  forall i probs, (recognize models test_set).1 !! i = Some probs ->
    let d := get_item_Xlengths test_set i in
    dom probs = list_to_set (dict_keys models) /\
    (forall w m, dict_getitem models w = Ok m ->
       probs !! w = Some match (model ← getattr m; score model d) with
                         | Ok ll => ll
                         | Raise _ => neg_infinity
                         end) /\
    (forall w, w ∉ dict_keys models -> probs !! w = None) /\
    (NoDup (dict_keys models) -> size probs = length models).
Proof.
  split.
  { rewrite recognize_items. simpl. by rewrite length_map, length_seq. }
  intros i probs Hprobs d.
  destruct (recognize_lookup_inv models test_set i) as [Hi _].
  specialize (Hi _ Hprobs).
  destruct (recognize_lookup models test_set i Hi) as [Hp _].
  rewrite Hp in Hprobs. injection Hprobs as <-. fold d.
  assert (dom (recognize_item models d).1.1 =@{gset string} list_to_set (dict_keys models))
    as Hdom.
  { apply set_eq. intros w. rewrite elem_of_dom, elem_of_list_to_set.
    rewrite recognize_item_probs. destruct (decide (w ∈ dict_keys models)).
    - split; [done|]. intros _. by eexists.
    - split; [intros [? ?]; done|done]. }
  split; [done|]. split; [|split].
  - intros w m Hm. rewrite recognize_item_probs.
    rewrite decide_True by (apply dict_getitem_key; eauto).
    f_equal. pose proof (word_score_cases models d w m Hm) as Hsc.
    by destruct (_ ≫= _).
  - intros w Hw. rewrite recognize_item_probs. by rewrite decide_False.
  - intros Hnodup. rewrite <- size_dom, Hdom.
    rewrite size_list_to_set by done. unfold dict_keys. by rewrite length_map.
Qed.

(** C2 (as amended). The recognizer returns two lists with one entry per
    test item, the [i]-th entries computed from the [i]-th item. For an
    item with some score above [-inf] the guess is the arg-max of the
    item's score map, the first category in the iteration order of
    [models] among those with the greatest score; for an item with no
    score above [-inf] the guess is [None]. *)
Theorem recognize_guess_first_argmax (models : list (string * option GaussianHMM))
  (test_set : SinglesData) :
  length (recognize models test_set).1 = num_items test_set /\
  length (recognize models test_set).2 = num_items test_set /\
  (forall i, (i < num_items test_set)%nat ->
     (recognize models test_set).1 !! i =
       Some (recognize_item models (get_item_Xlengths test_set i)).1.1 /\
     (recognize models test_set).2 !! i =
       Some (recognize_item models (get_item_Xlengths test_set i)).2) /\
  forall i probs guess,
    (recognize models test_set).1 !! i = Some probs ->
    (recognize models test_set).2 !! i = Some guess ->
    match guess with
    | Some w =>
        is_argmax (dict_keys models) probs w /\
        exists s, probs !! w = Some s /\ (neg_infinity <? s)%float = true
    | None => forall w s, probs !! w = Some s -> (neg_infinity <? s)%float = false
    end.
Proof.
  split; [|split; [|split]].
  - rewrite recognize_items. simpl. by rewrite length_map, length_seq.
  - rewrite recognize_items. simpl. by rewrite length_map, length_seq.
  - apply recognize_lookup.
  - intros i probs guess Hprobs Hguess.
    destruct (recognize_lookup_inv models test_set i) as [Hi _].
    specialize (Hi _ Hprobs).
    destruct (recognize_lookup models test_set i Hi) as [Hp Hg].
    rewrite Hp in Hprobs. rewrite Hg in Hguess.
    injection Hprobs as <-. injection Hguess as <-.
    set (d := get_item_Xlengths test_set i).
    pose proof (recognize_item_guess models d) as Hitem. simpl in Hitem.
    destruct (recognize_item models d).2 as [w|].
    + destruct Hitem as (l1 & l2 & Hkeys & Habove & Hmax & Hfirst).
      assert (w ∈ dict_keys models) as Hw by (rewrite Hkeys; set_solver).
      split.
      * exists l1, l2, (word_score models d w).
        split; [done|]. split; [by apply recognize_item_lookup|]. split.
        -- intros w' s' [Hw' ->]%recognize_item_lookup. by apply Hmax.
        -- intros w' s' Hl1 [Hw' ->]%recognize_item_lookup. by apply Hfirst.
      * exists (word_score models d w). split; [by apply recognize_item_lookup|done].
    + intros w s [Hw ->]%recognize_item_lookup. by apply Hitem.
Qed.

(** C10. For a test item the guess is [None] exactly when no category's
    score is above [-inf]: it is [None] when every score is [-inf], as
    when [models] is empty or every model fails to score the item, and
    when it is [None] every score that is a number is [-inf]. Otherwise
    the guess is a key of [models]. *)
Theorem recognize_no_guess (models : list (string * option GaussianHMM))
  (test_set : SinglesData) (i : nat) (probs : gmap string float) (guess : option string) :
  (recognize models test_set).1 !! i = Some probs ->
  (recognize models test_set).2 !! i = Some guess ->
  let d := get_item_Xlengths test_set i in
  (guess = None <->
     forall w s, probs !! w = Some s -> (neg_infinity <? s)%float = false) /\
  ((forall w s, probs !! w = Some s -> s = neg_infinity) -> guess = None) /\
  (guess = None ->
     forall w s, probs !! w = Some s -> is_nan s = false -> s = neg_infinity) /\
  (models = [] -> guess = None) /\
  ((forall w m, dict_getitem models w = Ok m ->
      exists e, (model ← getattr m; score model d) = Raise e) -> guess = None) /\
  (forall w, guess = Some w -> w ∈ dict_keys models).
Proof.
  intros Hprobs Hguess d.
  destruct (recognize_lookup_inv models test_set i) as [Hi _].
  specialize (Hi _ Hprobs).
  destruct (recognize_lookup models test_set i Hi) as [Hp Hg].
  rewrite Hp in Hprobs. rewrite Hg in Hguess.
  injection Hprobs as <-. injection Hguess as <-. fold d.
  assert ((recognize_item models d).2 = None <->
          forall w s, (recognize_item models d).1.1 !! w = Some s ->
                      (neg_infinity <? s)%float = false) as Hiff.
  { rewrite recognize_item_none. split.
    - intros Hall w s [Hw ->]%recognize_item_lookup. by apply Hall.
    - intros Hall w Hw. apply (Hall w). by apply recognize_item_lookup. }
  split; [done|]. split; [|split; [|split; [|split]]].
  - intros Hall. apply Hiff. intros w s Hs. rewrite (Hall w s Hs).
    apply FloatOrder.ltb_irrefl.
  - intros Hnone w s Hs Hnan. apply FloatOrder.not_above_neg_infinity; [|done].
    exact (proj1 Hiff Hnone w s Hs).
  - intros ->. apply recognize_item_none. intros w Hw. inversion Hw.
  - intros Hfail. apply recognize_item_none. intros w Hw.
    apply dict_getitem_key in Hw as [m Hm].
    pose proof (word_score_cases models d w m Hm) as Hsc.
    destruct (Hfail w m Hm) as [e He]. rewrite He in Hsc. rewrite Hsc.
    apply FloatOrder.ltb_irrefl.
  - intros w Hw. pose proof (recognize_item_guess models d) as Hitem. simpl in Hitem.
    rewrite Hw in Hitem. destruct Hitem as (l1 & l2 & Hkeys & _).
    rewrite Hkeys. apply elem_of_app. right. apply elem_of_cons. by left.
Qed.

End RecognizerClaims.

(** * The program on concrete data *)

(** [float(p)] of an int raises [OverflowError] from the first int that
    rounds beyond the largest binary64 float. *)
Example py_float_overflow :
  py_float (2 ^ 1024) = Raise OverflowError /\
  py_float (2 ^ 1024 - 2 ^ 970) = Raise OverflowError /\
  py_float (2 ^ 1024 - 2 ^ 970 - 1) = Ok (float_of_int (2 ^ 1024 - 2 ^ 970 - 1)) /\
  py_float 10 = Ok 10%float.
Proof. vm_compute. repeat split. Qed.

Example SelectorBIC_select_cat :
  SelectorBIC_select (H:=toy) cat_selector = Ok (Some (toy_model 2)).
Proof. reflexivity. Qed.

Example SelectorDIC_select_cat :
  SelectorDIC_select (H:=toy) cat_selector = Ok (Some (toy_model 2)).
Proof. reflexivity. Qed.

Example SelectorCV_select_cat :
  SelectorCV_select (H:=toy) cat_selector = Ok (Some cat_model).
Proof. reflexivity. Qed.

Example recognize_cat :
  (recognize demo_models
     (test_items [as_Xlengths cat_sequences; as_Xlengths eel_sequences])).2 =
  [Some "CAT"%string; None].
Proof. vm_compute. reflexivity. Qed.

(** C2, the claim as worded fails: on an item that no model can score,
    every category is recorded with [-inf], so CAT, the first category, is
    the arg-max of the score map; the guess is [None]. *)
Lemma recognize_guess_not_argmax :
  ~ guess_is_argmax demo_models (test_items [as_Xlengths eel_sequences]).
Proof.
  intros Hclaim.
  specialize (Hclaim 0%nat
                {[ "CAT"%string := neg_infinity; "DOG"%string := neg_infinity ]}
                "CAT"%string).
  assert ((recognize demo_models (test_items [as_Xlengths eel_sequences])).2 !! 0%nat
          = Some None) as Hguess by (vm_compute; reflexivity).
  rewrite Hguess in Hclaim.
  enough (Some (None : option string) = Some (Some "CAT"%string)) by done.
  apply Hclaim; [vm_compute; reflexivity|].
  exists [], ["DOG"%string], neg_infinity.
  split; [reflexivity|]. split; [vm_compute; reflexivity|]. split.
  - intros w' s' Hs'.
    destruct (decide (w' = "CAT"%string)) as [->|Hcat].
    { rewrite lookup_insert_eq in Hs'. injection Hs' as <-. reflexivity. }
    rewrite lookup_insert_ne in Hs' by done.
    apply lookup_singleton_Some in Hs' as [_ <-]. reflexivity.
  - intros w' s' Hin. inversion Hin.
Qed.

(** C5, the claim as worded fails: the two-state CAT candidate is fitted
    and scored on its own data and on DOG's, scoring it on EEL's
    three-dimensional frames raises, and the candidate is not kept with
    the DOG score alone: it is skipped. *)
Lemma dic_foreign_failure_not_tolerated :
  ~ foreign_failure_tolerated (H:=toy) zoo_selector 2.
Proof.
  intros Hclaim.
  assert (dic_candidate (H:=toy) zoo_selector 2 = Raise ValueError) as Hcode
    by reflexivity.
  rewrite (Hclaim (toy_model 2) (toy_model 2) (-7)%float) in Hcode;
    [discriminate|reflexivity|reflexivity|reflexivity|].
  intros Hnil. apply (f_equal length) in Hnil.
  vm_compute in Hnil. discriminate.
Qed.

(** The final refit of [SelectorCV.select] is the one oracle call no
    [try] guards. With an oracle whose [fit] depends on what the object
    learnt before (the warm-starting one raises on an object's fifth fit)
    the search over the three CAT sequences picks a winner and the refit
    of that object raises to the caller: the assumption
    [fit_ignores_previous] of the two properties of the refit cannot be
    dropped. *)
Remark warm_final_refit_raises :
  (exists m, best_model (cv_search (H:=warm) cat_selector) = Some m /\
             fit m (X cat_selector, lengths cat_selector) = Raise ValueError) /\
  SelectorCV_select (H:=warm) cat_selector = Raise ValueError.
Proof.
  split; [|reflexivity].
  apply (SelectorCV_select_raises (H:=warm)). reflexivity.
Qed.

(** With the same oracle the model returned for DOG has gone through four
    fits, the fold fits among them, where a fresh model fitted on the full
    data has gone through one. *)
Remark warm_refit_not_fresh :
  ~ returns_fresh_refit (H:=warm) dog_selector.
Proof.
  intros Hclaim.
  destruct (Hclaim (warm_model 4)) as (n & Hn & Hfresh); [reflexivity|].
  assert (best_n (cv_search (H:=warm) dog_selector) = Some 2) as Hwin by reflexivity.
  rewrite Hwin in Hn. injection Hn as <-.
  assert (base_model (H:=warm) dog_selector 2 = Some (warm_model 1)) as Hone
    by reflexivity.
  rewrite Hone in Hfresh. injection Hfresh as Hfits. discriminate Hfits.
Qed.

(** C9, an instance: a category with one three-frame sequence. *)
Lemma SelectorCV_select_single_sequence_witness :
  length (sequences solo_selector) = 1%nat /\
  SelectorCV_select (H:=toy) solo_selector = Ok None.
Proof.
  split; [reflexivity|].
  apply (SelectorCV_select_single_sequence (H:=toy) solo_selector). reflexivity.
Defined.

(** C10, an instance: an item of three-dimensional frames, which the CAT
    model cannot score and for which DOG has no model. *)
Lemma recognize_no_guess_witness :
  (recognize demo_models (test_items [as_Xlengths eel_sequences])).2 !! 0%nat
    = Some None /\
  forall w s,
    ({[ "CAT"%string := neg_infinity; "DOG"%string := neg_infinity ]}
       : gmap string float) !! w = Some s ->
    is_nan s = false -> s = neg_infinity.
Proof.
  split; [vm_compute; reflexivity|].
  apply (recognize_no_guess demo_models (test_items [as_Xlengths eel_sequences])
           0%nat _ None); [vm_compute; reflexivity|vm_compute; reflexivity|].
  reflexivity.
Defined.

(** * Further properties of the selectors *)

Section SelectorProperties.
Context `{Oracle}.

Lemma py_range_empty (lo hi : Z) : hi <= lo -> py_range lo hi = [].
Proof.
  intros Hle. unfold py_range.
  replace (Z.to_nat (hi - lo)) with 0%nat by lia. done.
Qed.

Lemma dict_getitem_raises {V : Type} (d : list (string * V)) (k : string) (e : exn) :
  dict_getitem d k = Raise e -> e = KeyError /\ k ∉ dict_keys d.
Proof.
  induction d as [|[k' v'] d IH]; simpl.
  - intros [= <-]. split; [done|]. apply not_elem_of_nil.
  - destruct (String.eqb_spec k' k) as [->|Hne]; [done|].
    intros [-> Hk]%IH. split; [done|].
    unfold dict_keys. simpl. rewrite elem_of_cons. intros [?|?]; [congruence|done].
Qed.

(** The winner of each search, read off the model that is returned. *)
Lemma bic_select_winner (self : ModelSelector) (m : GaussianHMM) :
  SelectorBIC_select self = Ok (Some m) ->
  exists n s,
    min_n_components self <= n <= max_n_components self /\
    bic_candidate self (Z.of_nat (length (X self))) n = Ok (s, m).
Proof.
  unfold SelectorBIC_select. cbv zeta.
  change {| best_score := infinity; best_model := None; best_n := None |}
    with (held (infinity, None)).
  rewrite bic_loop.
  pose proof (tracked_lowest
                (fun n => scored (bic_candidate self (Z.of_nat (length (X self))) n))
                infinity
                (py_range (min_n_components self) (max_n_components self + 1))) as Ht.
  apply tracked_range in Ht;
    [|apply FloatOrder.ltb_irrefl|intros x y; apply FloatOrder.ltb_leb].
  destruct (fold_left _ _ _) as [b [[n v]|]]; simpl in *; [|done].
  destruct Ht as (Hn & Hev & _).
  apply scored_Some in Hev as (m1 & -> & Hev). simpl.
  intros [= <-]. exists n, b. split; [lia|done].
Qed.

Lemma dic_select_winner (self : ModelSelector) (m : GaussianHMM) :
  SelectorDIC_select self = Ok (Some m) ->
  exists n s,
    min_n_components self <= n <= max_n_components self /\
    dic_candidate self n = Ok (s, m).
Proof.
  unfold SelectorDIC_select. cbv zeta.
  change {| best_score := neg_infinity; best_model := None; best_n := None |}
    with (held (neg_infinity, None)).
  rewrite dic_loop.
  pose proof (tracked_highest (fun n => scored (dic_candidate self n)) neg_infinity
                (py_range (min_n_components self) (max_n_components self + 1))) as Ht.
  apply tracked_range in Ht;
    [|apply FloatOrder.ltb_irrefl|intros x y; apply FloatOrder.ltb_leb].
  destruct (fold_left _ _ _) as [b [[n v]|]]; simpl in *; [|done].
  destruct Ht as (Hn & Hev & _).
  apply scored_Some in Hev as (m1 & -> & Hev). simpl.
  intros [= <-]. exists n, b. split; [lia|done].
Qed.

Lemma cv_search_model (self : ModelSelector) (m : GaussianHMM) :
  best_model (cv_search self) = Some m ->
  exists n m0,
    min_n_components self <= n <= max_n_components self /\
    base_model self n = Some m0 /\
    n_components m = n /\ random_state m = selector_random_state self.
Proof.
  intros Hbest. pose proof (cv_search_winner self) as Hw. simpl in Hw.
  destruct (best_n (cv_search self)) as [n|]; [|destruct Hw; congruence].
  destruct Hw as (Hn & Hc & _). rewrite Hbest in Hc.
  destruct (cv_candidate_inv _ _ _ _ _ Hc) as (sp & lls & Hsplit & Hfolds & _ & _).
  assert (sp <> []) as Hne.
  { apply KFold_split_Ok in Hsplit as [Hk Hl]. intros ->. simpl in Hl. lia. }
  destruct (cv_folds_model _ _ _ _ _ Hfolds Hne) as (m0 & m2 & Hm0 & [= <-] & Hnc & Hrs).
  exists n, m0. split; [done|]. split; [done|].
  pose proof (base_model_n_components _ _ _ Hm0) as Hn0.
  apply base_model_fit in Hm0. apply fit_random_state in Hm0. simpl in Hm0.
  split; congruence.
Qed.

(** Fitting a model that [base_model] built once more on the same data
    changes nothing when [fit] does not depend on earlier training. *)
Lemma refit_base_model (self : ModelSelector) (n : Z) (m0 m : GaussianHMM) :
  fit_ignores_previous ->
  base_model self n = Some m0 ->
  n_components m = n -> random_state m = selector_random_state self ->
  fit m (X self, lengths self) = Ok m0.
Proof.
  intros Hfresh Hm0 Hn Hseed. apply base_model_fit in Hm0.
  unfold fit in *. simpl in Hm0.
  rewrite Hn, Hseed, (Hfresh _ _ (fitted m)). done.
Qed.

(** X1. [ModelSelector.__init__] raises [KeyError] exactly when the word is
    missing from one of the two dicts; otherwise the selector holds the
    word's own sequences and its own [(X, lengths)], and the two dicts
    whole. *)
Theorem ModelSelector_init_word (all_word_sequences : list (string * list sequence))
  (all_word_Xlengths : list (string * Xlengths)) (word : string)
  (n_const min_n max_n seed : Z) (verb : bool) :
  match ModelSelector_init all_word_sequences all_word_Xlengths word
          n_const min_n max_n seed verb with
  | Ok self =>
      dict_getitem all_word_sequences word = Ok (sequences self) /\
      dict_getitem all_word_Xlengths word = Ok (X self, lengths self) /\
      words self = all_word_sequences /\ hwords self = all_word_Xlengths /\
      this_word self = word /\
      min_n_components self = min_n /\ max_n_components self = max_n /\
      n_constant self = n_const /\ selector_random_state self = seed
  | Raise e =>
      e = KeyError /\
      (word ∉ dict_keys all_word_sequences \/ word ∉ dict_keys all_word_Xlengths)
  end.
Proof.
  unfold ModelSelector_init.
  destruct (dict_getitem all_word_sequences word) as [seqs|e1] eqn:H1; simpl.
  - destruct (dict_getitem all_word_Xlengths word) as [[x l]|e2] eqn:H2; simpl.
    + done.
    + apply dict_getitem_raises in H2 as [-> H2]. eauto.
  - apply dict_getitem_raises in H1 as [-> H1]. eauto.
Qed.

(** X2. [SelectorConstant.select] never raises and ignores the search
    range: it returns a model with exactly [n_constant] states and the
    selector's seed, holding what a fresh fit on the category's full data
    learns, or [None] exactly when that fit raises. *)
Theorem SelectorConstant_select_n_constant (self : ModelSelector) :
  exists r, SelectorConstant_select self = Ok r /\
    match r with
    | Some m =>
        n_components m = n_constant self /\
        random_state m = selector_random_state self /\
        exists p, fitted m = Some p /\
          hmm_fit (n_constant self) (selector_random_state self) None
            (X self, lengths self) = Ok p
    | None =>
        exists e, hmm_fit (n_constant self) (selector_random_state self) None
                    (X self, lengths self) = Raise e
    end.
Proof.
  exists (base_model self (n_constant self)). split; [done|].
  unfold base_model, fit. simpl.
  destruct (hmm_fit _ _ _ _) as [p|e]; simpl; eauto.
Qed.

(** X3. With an empty search range ([max_n < min_n]) the three searching
    selectors return [None]: no candidate is tried. *)
Theorem select_empty_range (self : ModelSelector) :
  max_n_components self < min_n_components self ->
  SelectorBIC_select self = Ok None /\
  SelectorDIC_select self = Ok None /\
  SelectorCV_select self = Ok None.
Proof.
  intros Hrange.
  unfold SelectorBIC_select, SelectorDIC_select, SelectorCV_select, cv_search.
  rewrite (py_range_empty (min_n_components self)) by lia. done.
Qed.

(** X4. Whatever selector returns a model, the model's state count lies in
    the search range [min_n .. max_n]. *)
Theorem select_state_count_in_range (self : ModelSelector) (m : GaussianHMM) :
  SelectorBIC_select self = Ok (Some m) \/
  SelectorDIC_select self = Ok (Some m) \/
  SelectorCV_select self = Ok (Some m) ->
  min_n_components self <= n_components m <= max_n_components self.
Proof.
  intros [Hsel | [Hsel | Hsel]].
  - apply bic_select_winner in Hsel as (n & s & Hn & Hc).
    apply bic_candidate_inv in Hc as (m0 & d & logL & Hm0 & Hfit & _).
    apply fit_n_components in Hfit. apply base_model_n_components in Hm0. lia.
  - apply dic_select_winner in Hsel as (n & s & Hn & Hc).
    apply dic_candidate_inv in Hc as (m0 & logL & anti & Hm0 & Hfit & _).
    apply fit_n_components in Hfit. apply base_model_n_components in Hm0. lia.
  - unfold SelectorCV_select in Hsel.
    destruct (best_model (cv_search self)) as [m1|] eqn:Hbest; [|done].
    destruct (fit m1 _) as [m2|] eqn:Hfit; simpl in Hsel; [|done].
    injection Hsel as ->.
    apply cv_search_model in Hbest as (n & m0 & Hn & _ & Hnc & _).
    apply fit_n_components in Hfit. lia.
Qed.

Lemma dic_anti_loop_no_foreign (self : ModelSelector) (m : GaussianHMM)
  (ws : list string) (count : Z) (acc : pynum) :
  filter (fun w => w <> this_word self) ws = [] ->
  dic_anti_loop self m ws count acc = Ok (count, acc).
Proof.
  revert count acc. induction ws as [|w ws IH]; intros count acc Hf; [done|].
  simpl. destruct (String.eqb_spec w (this_word self)) as [->|Hne].
  - apply IH. by rewrite filter_cons_False in Hf by (intros Hw; by apply Hw).
  - rewrite filter_cons_True in Hf by done. done.
Qed.

(** X5. When [hwords] holds no category other than the selector's own,
    [SelectorDIC.select] returns [None]: every candidate that is fitted
    and scored ends in the division [1/float(0)], which raises and skips
    it. *)
Theorem SelectorDIC_select_no_foreign (self : ModelSelector) :
  foreign self = [] ->
  (forall n m0 m logL,
     base_model self n = Some m0 -> fit m0 (X self, lengths self) = Ok m ->
     score m (X self, lengths self) = Ok logL ->
     dic_candidate self n = Raise ZeroDivisionError) /\
  (forall n, exists e, dic_candidate self n = Raise e) /\
  SelectorDIC_select self = Ok None.
Proof.
  intros Hforeign.
  assert (forall n, exists e, dic_candidate self n = Raise e) as Hraise.
  { intros n. destruct (dic_candidate self n) as [[s m]|e] eqn:Hc; [|eauto].
    apply dic_candidate_inv in Hc as (_ & _ & anti & _ & _ & _ & Hanti & Hne & _).
    rewrite Hforeign in Hanti. inversion Hanti. done. }
  split; [|split; [done|]].
  - intros n m0 m logL Hm0 Hfit Hscore.
    unfold dic_candidate. rewrite Hm0. simpl. rewrite Hfit. simpl.
    rewrite Hscore. simpl. by rewrite dic_anti_loop_no_foreign.
  - destruct (SelectorDIC_select self) as [[m|]|e] eqn:Hsel; [|done|].
    + apply dic_select_winner in Hsel as (n & s & _ & Hc).
      destruct (Hraise n) as [e He]. congruence.
    + unfold SelectorDIC_select in Hsel. done.
Qed.

(** X6. On a category with no sequence at all [SelectorCV.select] returns
    [None]: the fold count is 0, which [KFold] refuses for every
    candidate. *)
Theorem SelectorCV_select_no_sequence (self : ModelSelector) :
  sequences self = [] ->
  (forall n, cv_candidate self 0 n = Raise ValueError) /\
  SelectorCV_select self = Ok None.
Proof.
  intros Hnone.
  assert (forall n, cv_candidate self 0 n = Raise ValueError) as Hc.
  { intros n. unfold cv_candidate. by rewrite Hnone. }
  split; [done|].
  pose proof (cv_search_winner self) as Hw. simpl in Hw. rewrite Hnone in Hw.
  change (Z.min 3 (Z.of_nat (length (@nil sequence)))) with 0 in Hw.
  unfold SelectorCV_select.
  destruct (best_n (cv_search self)) as [n|].
  - destruct Hw as (_ & Hn & _). by rewrite Hc in Hn.
  - destruct Hw as [-> _]. done.
Qed.

(** X7. When [fit] does not depend on what the object learnt before, the
    second fit that [SelectorBIC] and [SelectorDIC] run on every candidate
    changes nothing: the model either returns is the one [base_model]
    builds for a state count of the search range. *)
Theorem select_returns_base_model (self : ModelSelector) (m : GaussianHMM) :
  fit_ignores_previous ->
  SelectorBIC_select self = Ok (Some m) \/ SelectorDIC_select self = Ok (Some m) ->
  exists n,
    min_n_components self <= n <= max_n_components self /\
    base_model self n = Some m.
Proof.
  intros Hfresh Hsel.
  assert (exists n m0,
             min_n_components self <= n <= max_n_components self /\
             base_model self n = Some m0 /\
             fit m0 (X self, lengths self) = Ok m) as (n & m0 & Hn & Hm0 & Hfit).
  { destruct Hsel as [Hsel | Hsel].
    - apply bic_select_winner in Hsel as (n & s & Hn & Hc).
      apply bic_candidate_inv in Hc as (m0 & d & logL & Hm0 & Hfit & _). eauto.
    - apply dic_select_winner in Hsel as (n & s & Hn & Hc).
      apply dic_candidate_inv in Hc as (m0 & logL & anti & Hm0 & Hfit & _). eauto. }
  exists n. split; [done|].
  rewrite (refit_base_model self n m0 m0 Hfresh Hm0) in Hfit.
  - congruence.
  - by eapply base_model_n_components.
  - apply base_model_fit in Hm0. by apply fit_random_state in Hm0.
Qed.

(** X8. When [fit] does not depend on what the object learnt before,
    [SelectorCV.select] never raises: the final refit repeats the fit
    [base_model] ran for the winner, which did not raise. *)
Theorem SelectorCV_select_returns (self : ModelSelector) :
  fit_ignores_previous ->
  exists r, SelectorCV_select self = Ok r /\
    match r with
    | Some m =>
        exists n, min_n_components self <= n <= max_n_components self /\
                  base_model self n = Some m
    | None => best_model (cv_search self) = None
    end.
Proof.
  intros Hfresh. unfold SelectorCV_select.
  destruct (best_model (cv_search self)) as [m|] eqn:Hbest; [|by exists None].
  apply cv_search_model in Hbest as (n & m0 & Hn & Hm0 & Hnc & Hseed).
  rewrite (refit_base_model self n m0 m Hfresh Hm0 Hnc Hseed). simpl.
  exists (Some m0). split; [done|]. eauto.
Qed.





End SelectorProperties.

(** * Further properties of the recognizer *)

Section RecognizerProperties.
Context `{Oracle}.

(** X9. A category whose model is [None], or whose model raises when
    scoring an item, is never the guess for that item. *)
Theorem recognize_never_guesses_failed (models : list (string * option GaussianHMM))
  (test_set : SinglesData) (i : nat) (guess : option string)
  (w : string) (m : option GaussianHMM) :
  (recognize models test_set).2 !! i = Some guess ->
  dict_getitem models w = Ok m ->
  (exists e, (model ← getattr m; score model (get_item_Xlengths test_set i)) = Raise e) ->
  guess <> Some w.
Proof.
  intros Hguess Hm [e He] ->.
  destruct (recognize_lookup_inv models test_set i) as [_ Hi].
  specialize (Hi _ Hguess).
  destruct (recognize_lookup models test_set i Hi) as [_ Hg].
  rewrite Hg in Hguess. injection Hguess as Hguess.
  pose proof (recognize_item_guess models (get_item_Xlengths test_set i)) as Hitem.
  simpl in Hitem. rewrite Hguess in Hitem.
  destruct Hitem as (l1 & l2 & _ & Habove & _).
  pose proof (word_score_cases models (get_item_Xlengths test_set i) w m Hm) as Hsc.
  rewrite He in Hsc. rewrite Hsc in Habove.
  by rewrite FloatOrder.ltb_irrefl in Habove.
Qed.

(** X10. A category whose score for an item is above [-inf] and strictly
    above every other category's score is the guess for that item,
    wherever it stands in [models]. *)
Theorem recognize_guesses_strict_winner (models : list (string * option GaussianHMM))
  (test_set : SinglesData) (i : nat) (guess : option string) (w : string) :
  let sc := word_score models (get_item_Xlengths test_set i) in
  (recognize models test_set).2 !! i = Some guess ->
  w ∈ dict_keys models ->
  (neg_infinity <? sc w)%float = true ->
  (forall w', w' ∈ dict_keys models -> w' <> w -> (sc w' <? sc w)%float = true) ->
  guess = Some w.
Proof.
  intros sc Hguess Hw Habove Hstrict.
  destruct (recognize_lookup_inv models test_set i) as [_ Hi].
  specialize (Hi _ Hguess).
  destruct (recognize_lookup models test_set i Hi) as [_ Hg].
  rewrite Hg in Hguess. injection Hguess as <-.
  pose proof (recognize_item_guess models (get_item_Xlengths test_set i)) as Hitem.
  simpl in Hitem. fold sc in Hitem.
  destruct (recognize_item models (get_item_Xlengths test_set i)).2 as [w0|].
  - destruct Hitem as (l1 & l2 & Hkeys & _ & Hmax & _).
    destruct (decide (w0 = w)) as [->|Hne]; [done|].
    assert (w0 ∈ dict_keys models) as Hw0.
    { rewrite Hkeys. apply elem_of_app. right. apply elem_of_cons. by left. }
    specialize (Hmax w Hw). rewrite (Hstrict w0 Hw0 Hne) in Hmax. done.
  - rewrite (Hitem w Hw) in Habove. done.
Qed.

Lemma dict_getitem_app_l {V : Type} (d e : list (string * V)) (k : string) :
  k ∈ dict_keys d -> dict_getitem (d ++ e) k = dict_getitem d k.
Proof.
  induction d as [|[k' v'] d IH]; simpl; [intros Hk; inversion Hk|].
  destruct (String.eqb_spec k' k) as [->|Hne]; [done|].
  unfold dict_keys. simpl. rewrite elem_of_cons. intros [?|?]; [congruence|].
  by apply IH.
Qed.

Lemma dict_getitem_app_r {V : Type} (d e : list (string * V)) (k : string) :
  k ∉ dict_keys d -> dict_getitem (d ++ e) k = dict_getitem e k.
Proof.
  induction d as [|[k' v'] d IH]; simpl; [done|].
  unfold dict_keys. simpl. rewrite elem_of_cons. intros Hk.
  destruct (String.eqb_spec k' k) as [->|Hne]; [exfalso; apply Hk; by left|].
  apply IH. intros ?. apply Hk. by right.
Qed.

Lemma recognize_word_loop_ext (models models' : list (string * option GaussianHMM))
  (d : Xlengths) (ws : list string) st :
  (forall k, k ∈ ws -> word_score models' d k = word_score models d k) ->
  fold_left (recognize_word models' d) ws st = fold_left (recognize_word models d) ws st.
Proof.
  revert st. induction ws as [|k ws IH]; intros st Hext; [done|].
  simpl. unfold recognize_word at 2 4.
  rewrite (Hext k) by (apply elem_of_cons; by left).
  apply IH. intros k' Hk'. apply Hext, elem_of_cons. by right.
Qed.

(** One more category with no model, on one item. *)
Lemma recognize_item_add_failed (models : list (string * option GaussianHMM))
  (d : Xlengths) (w : string) :
  w ∉ dict_keys models ->
  recognize_item (models ++ [(w, None)]) d =
  (<[w := neg_infinity]> (recognize_item models d).1.1,
   (recognize_item models d).1.2, (recognize_item models d).2).
Proof.
  intros Hw. unfold recognize_item at 1.
  unfold dict_keys. rewrite map_app, fold_left_app. simpl.
  rewrite (recognize_word_loop_ext models).
  - fold (dict_keys models). fold (recognize_item models d).
    unfold recognize_word, word_score.
    rewrite dict_getitem_app_r by done. simpl. rewrite String.eqb_refl. simpl.
    by rewrite FloatOrder.neg_infinity_not_above.
  - intros k Hk. unfold word_score. by rewrite dict_getitem_app_l.
Qed.

(** X11. Adding a category with no model (a failed selection) under a new
    key leaves every guess as it was, and adds the new key with [-inf] to
    every score map. *)
Theorem recognize_add_failed_category (models : list (string * option GaussianHMM))
  (test_set : SinglesData) (w : string) :
  w ∉ dict_keys models ->
  (recognize (models ++ [(w, None)]) test_set).2 = (recognize models test_set).2 /\
  (recognize (models ++ [(w, None)]) test_set).1 =
    (fun probs : gmap string float => <[w := neg_infinity]> probs)
      <$> (recognize models test_set).1.
Proof.
  intros Hw. rewrite !recognize_items. simpl. split.
  - apply map_ext. intros i. by rewrite recognize_item_add_failed.
  - rewrite <- list_fmap_compose. apply map_ext. intros i. simpl.
    by rewrite recognize_item_add_failed.
Qed.

End RecognizerProperties.

(** * The further properties on concrete data *)

Lemma toy_fit_ignores_previous : fit_ignores_previous (H:=toy).
Proof. intros n seed prev d. reflexivity. Qed.

(** X3, an instance: the range 5..4 over the CAT data. *)
Lemma select_empty_range_witness :
  max_n_components empty_range_selector < min_n_components empty_range_selector /\
  SelectorBIC_select (H:=toy) empty_range_selector = Ok None /\
  SelectorDIC_select (H:=toy) empty_range_selector = Ok None /\
  SelectorCV_select (H:=toy) empty_range_selector = Ok None.
Proof.
  split; [reflexivity|].
  apply (select_empty_range (H:=toy) empty_range_selector). reflexivity.
Defined.

(** X4, an instance: the two-state model BIC selects for CAT. *)
Lemma select_state_count_in_range_witness :
  SelectorBIC_select (H:=toy) cat_selector = Ok (Some (toy_model 2)) /\
  min_n_components cat_selector <= n_components (toy_model 2)
    <= max_n_components cat_selector.
Proof.
  split; [reflexivity|].
  apply (select_state_count_in_range (H:=toy) cat_selector (toy_model 2)).
  left. reflexivity.
Defined.

(** X5, an instance: CAT is the only category. *)
Lemma SelectorDIC_select_no_foreign_witness :
  foreign solo_selector = [] /\
  dic_candidate (H:=toy) solo_selector 2 = Raise ZeroDivisionError /\
  SelectorDIC_select (H:=toy) solo_selector = Ok None.
Proof.
  split; [reflexivity|].
  destruct (SelectorDIC_select_no_foreign (H:=toy) solo_selector) as (Hzero & _ & Hnone);
    [reflexivity|].
  split; [|exact Hnone].
  apply (Hzero 2 (toy_model 2) (toy_model 2) (-6)%float); reflexivity.
Defined.

(** X6, an instance: CAT has no sequence. *)
Lemma SelectorCV_select_no_sequence_witness :
  sequences no_sequence_selector = [] /\
  SelectorCV_select (H:=toy) no_sequence_selector = Ok None.
Proof.
  split; [reflexivity|].
  apply (SelectorCV_select_no_sequence (H:=toy) no_sequence_selector). reflexivity.
Defined.

(** X7, an instance: the toy oracle's fit ignores earlier training, and
    BIC returns what [base_model] builds for two states. *)
Lemma select_returns_base_model_witness :
  SelectorBIC_select (H:=toy) cat_selector = Ok (Some (toy_model 2)) /\
  exists n, min_n_components cat_selector <= n <= max_n_components cat_selector /\
            base_model (H:=toy) cat_selector n = Some (toy_model 2).
Proof.
  split; [reflexivity|].
  apply (select_returns_base_model (H:=toy) cat_selector (toy_model 2)
           toy_fit_ignores_previous).
  left. reflexivity.
Defined.

(** X8, an instance: cross-validation of CAT with the toy oracle. *)
Lemma SelectorCV_select_returns_witness :
  exists r, SelectorCV_select (H:=toy) cat_selector = Ok r /\
    match r with
    | Some m =>
        exists n, min_n_components cat_selector <= n <= max_n_components cat_selector /\
                  base_model (H:=toy) cat_selector n = Some m
    | None => best_model (cv_search (H:=toy) cat_selector) = None
    end.
Proof.
  apply (SelectorCV_select_returns (H:=toy) cat_selector toy_fit_ignores_previous).
Defined.

(** X9, an instance: DOG has no model, and is not the guess for the CAT
    item. *)
Lemma recognize_never_guesses_failed_witness :
  (recognize demo_models (test_items [as_Xlengths cat_sequences])).2 !! 0%nat
    = Some (Some "CAT"%string) /\
  Some "CAT"%string <> Some "DOG"%string.
Proof.
  split; [vm_compute; reflexivity|].
  apply (recognize_never_guesses_failed demo_models
           (test_items [as_Xlengths cat_sequences]) 0%nat
           (Some "CAT"%string) "DOG"%string None).
  - vm_compute. reflexivity.
  - reflexivity.
  - exists AttributeError. reflexivity.
Defined.

(** X10, an instance: CAT scores the CAT item above [-inf], DOG, with no
    model, at [-inf]. *)
Lemma recognize_guesses_strict_winner_witness :
  (recognize demo_models (test_items [as_Xlengths cat_sequences])).2 !! 0%nat
    = Some (Some "CAT"%string) /\
  Some "CAT"%string = Some "CAT"%string.
Proof.
  split; [vm_compute; reflexivity|].
  apply (recognize_guesses_strict_winner demo_models
           (test_items [as_Xlengths cat_sequences]) 0%nat
           (Some "CAT"%string) "CAT"%string).
  - vm_compute. reflexivity.
  - apply elem_of_cons. by left.
  - vm_compute. reflexivity.
  - intros w' Hin Hne.
    change (dict_keys demo_models) with ["CAT"%string; "DOG"%string] in Hin.
    apply elem_of_cons in Hin as [->|Hin]; [done|].
    apply list_elem_of_singleton in Hin as ->. vm_compute. reflexivity.
Defined.

(** X11, an instance: DOG, with no model, joins a mapping that holds
    CAT. *)
Lemma recognize_add_failed_category_witness :
  ("DOG"%string ∉ dict_keys cat_only_models) /\
  ((recognize (cat_only_models ++ [("DOG"%string, None)])
      (test_items [as_Xlengths cat_sequences; as_Xlengths eel_sequences])).2 =
   (recognize cat_only_models
      (test_items [as_Xlengths cat_sequences; as_Xlengths eel_sequences])).2).
Proof.
  assert ("DOG"%string ∉ dict_keys cat_only_models) as Hnew.
  { change (dict_keys cat_only_models) with ["CAT"%string].
    intros Hin%list_elem_of_singleton. discriminate. }
  split; [exact Hnew|].
  apply (recognize_add_failed_category cat_only_models
           (test_items [as_Xlengths cat_sequences; as_Xlengths eel_sequences])
           "DOG"%string Hnew).
Defined.


